(** * tsds-biome: mode detection and dispatch

    A shallow embedding of the two command modules of the repository,
    [src/command.ts] (functions [detectMode] and [run]) and its sibling
    (functions [detectMode] and [worker]), with the JavaScript runtime
    pieces they rely on:

    - the values [JSON.parse] can return and the dynamic operations the
      code applies to them (property access, truthiness, [indexOf]);
    - exceptions and [try]/[catch];
    - the observable effects (file system probes, console output, the spawn
      collaborator, the completion callback), recorded as a trace.

    External collaborators ([path.join], [JSON.parse], [getopts],
    [resolveBin], [require.resolve], the [process] globals, the file
    system) are fields of a [host] record.  [JSON.parse], [readFileSync]
    and [require.resolve], which the code calls inside a [try] block, may
    fail, and so may [resolveBin], which [run] calls outside any [try]: its
    exception leaves [run].  [getopts], [path.join], [console.log] and
    [spawn] are taken to return as their types say.  The file system does
    not change during a call.  The exported [format] wrappers choose the runtime in which [run] or
    [worker] is executed; what runs behind their bridges to another runtime
    is not part of the model. *)

From Stdlib Require Import Floats ZArith.
From stdpp Require Import gmap strings list pretty.

Local Open Scope string_scope.
Local Open Scope list_scope.
Local Open Scope Z_scope.

#[local] Set Warnings "-register-all".

(** ** JavaScript values *)

(** What [JSON.parse] can produce.  A number is an IEEE double, a string a
    sequence of code units (one [ascii] stands for one unit), an object a
    finite map from property names to values. *)
Inductive json : Type :=
| JNull
| JBool (b : bool)
| JNumber (x : float)
| JString (s : string)
| JArray (l : list json)
| JObject (m : gmap string json).

(** The value [undefined] is [None] of [option json]. *)

Inductive exn : Type :=
| SyntaxError      (* JSON.parse on malformed text *)
| TypeError        (* property access on null/undefined, call of a non-function *)
| SystemError      (* fs.readFileSync failing: EISDIR, EACCES, ... *)
| ModuleNotFound.  (* require.resolve or resolveBin failing *)

(** ToBoolean. *)
Definition truthy (v : json) : bool :=
  match v with
  | JNull => false
  | JBool b => b
  | JNumber x => negb (PrimFloat.eqb x 0 || PrimFloat.is_nan x)
  | JString s => negb (String.eqb s EmptyString)
  | JArray _ | JObject _ => true
  end.

(** [String.prototype.indexOf]: the least position at which [t] occurs in
    [s], or -1. *)
Fixpoint String_indexOf (s t : string) : Z :=
  if String.prefix t s then 0
  else match s with
       | EmptyString => -1
       | String _ s' =>
           let r := String_indexOf s' t in
           if (r <? 0)%Z then -1 else r + 1
       end.

(** [x === t] for a string [t]: no coercion. *)
Definition strict_equals_string (x : json) (t : string) : bool :=
  match x with
  | JString s => String.eqb s t
  | _ => false
  end.

(** [Array.prototype.indexOf]: the least index whose element is strictly
    equal to the searched value, or -1. *)
Fixpoint Array_indexOf (l : list json) (t : string) : Z :=
  match l with
  | [] => -1
  | x :: l' =>
      if strict_equals_string x t then 0
      else let r := Array_indexOf l' t in
           if (r <? 0)%Z then -1 else r + 1
  end.

(** ** Effects *)

(** The options object handed to the command: the code reads [cwd] (typed
    [string], possibly missing) and passes every other property on. *)
Record CommandOptions : Type := {
  options_cwd : option string;
  options_rest : gmap string json
}.

(** [{ ...options, cwd }] *)
Definition spread_with_cwd (options : CommandOptions) (cwd : string) : CommandOptions :=
  {| options_cwd := Some cwd; options_rest := options_rest options |}.

Inductive event (Callback : Type) : Type :=
| EExistsSync (p : string)                      (* fs.existsSync(p) *)
| EReadFileSync (p : string)                    (* fs.readFileSync(p, 'utf8') *)
| ELog (msg : string)                           (* console.log(msg) *)
| ESpawn (command : string) (args : list string)
         (options : CommandOptions) (cb : Callback)  (* spawn(command, args, options, cb) *)
| ECallback (cb : Callback).                    (* cb() *)
Arguments EExistsSync {Callback} p.
Arguments EReadFileSync {Callback} p.
Arguments ELog {Callback} msg.
Arguments ESpawn {Callback} command args options cb.
Arguments ECallback {Callback} cb.

(** How a computation ends: with a value, with an exception in flight, or
    with the step budget of a loop used up. *)
Inductive outcome (A : Type) : Type :=
| Returned (a : A)
| Thrown (e : exn)
| OutOfFuel.
Arguments Returned {A} a.
Arguments Thrown {A} e.
Arguments OutOfFuel {A}.

(** An effectful computation: the effects it performed, in order, and how
    it ended. *)
Definition M (Callback A : Type) : Type := list (event Callback) * outcome A.

(** Sequencing and [try]/[catch], for computations that only compute
    ([outcome]) and for those that also act on the world ([M]). *)
Class Monad (T : Type → Type) : Type := {
  ret : ∀ {A}, A → T A;
  bind : ∀ {A B}, T A → (A → T B) → T B;
  (** [try { m } catch (_err) { handler }] *)
  try_catch : ∀ {A}, T A → (exn → T A) → T A
}.

#[export] Instance outcome_monad : Monad outcome := {|
  ret := λ A a, Returned a;
  bind := λ A B m f,
    match m with
    | Returned a => f a
    | Thrown e => Thrown e
    | OutOfFuel => OutOfFuel
    end;
  try_catch := λ A m handler,
    match m with
    | Thrown e => handler e
    | Returned _ | OutOfFuel => m
    end
|}.

#[export] Instance M_monad {Callback} : Monad (M Callback) := {|
  ret := λ A a, ([], Returned a);
  bind := λ A B m f,
    match m with
    | (t, Returned a) => let '(t', o) := f a in (t ++ t', o)
    | (t, Thrown e) => (t, Thrown e)
    | (t, OutOfFuel) => (t, OutOfFuel)
    end;
  try_catch := λ A m handler,
    match m with
    | (t, Thrown e) => let '(t', o) := handler e in (t ++ t', o)
    | (_, Returned _) | (_, OutOfFuel) => m
    end
|}.

(** A computation without effects, run among effectful ones. *)
Definition lift {Callback A} (o : outcome A) : M Callback A := ([], o).

Definition emit {Callback} (e : event Callback) : M Callback unit := ([e], Returned tt).

Notation "'do' x <- m ; k" := (bind m (fun x => k))
  (at level 10, x name, m at level 100, k at level 200).
Notation "'exec' m ; k" := (bind m (fun _ => k))
  (at level 10, m at level 100, k at level 200).

(** ** The host *)

(** A path that [fs.existsSync] reports: a regular file with its text, or
    something [fs.readFileSync] fails on (a directory, no permission). *)
Inductive fs_entry : Type :=
| RegularFile (content : string)
| Unreadable.

(** What [getopts(args, { alias: { 'dry-run': 'd' }, boolean: ['dry-run',
    'legacy'] })] yields, as far as the code reads it: the truthiness of
    [opts['dry-run']] and of [opts.legacy]. *)
Record parsed_opts : Type := {
  opts_dry_run : bool;
  opts_legacy : bool
}.

Record host : Type := {
  files : gmap string fs_entry;
  path_join : string → string → string;
  (** [JSON.parse]; [None] when it throws a SyntaxError *)
  json_parse : string → option json;
  (** [i < v] for a loop counter [i] and a property value [v] (the
      relational comparison after ToNumber) *)
  js_lt : nat → json → bool;
  process_cwd : string;
  process_platform : string;
  process_env_OSTYPE : option string;
  process_arch : string;
  getopts : list string → parsed_opts;
  (** [resolveBin(name, bin)]: the path of a package's executable; [None]
      when it throws *)
  resolveBin : string → string → option string;
  (** [require.resolve]; [None] when it throws *)
  module_path : string → option string
}.

Section Primitives.
Context {Callback : Type}.
Variable h : host.

Definition fs_existsSync (p : string) : M Callback bool :=
  exec emit (EExistsSync p);
  ret (bool_decide (is_Some (files h !! p))).

Definition fs_readFileSync (p : string) : M Callback string :=
  exec emit (EReadFileSync p);
  match files h !! p with
  | Some (RegularFile content) => ret content
  | Some Unreadable | None => lift (Thrown SystemError)
  end.

Definition console_log (msg : string) : M Callback unit := emit (ELog msg).

Definition spawn (command : string) (args : list string)
    (options : CommandOptions) (cb : Callback) : M Callback unit :=
  emit (ESpawn command args options cb).

Definition callback (cb : Callback) : M Callback unit := emit (ECallback cb).

Definition JSON_parse (text : string) : outcome json :=
  match json_parse h text with
  | Some v => Returned v
  | None => Thrown SyntaxError
  end.

Definition require_resolve (request : string) : outcome string :=
  match module_path h request with
  | Some p => Returned p
  | None => Thrown ModuleNotFound
  end.

Definition call_resolveBin (name bin : string) : outcome string :=
  match resolveBin h name bin with
  | Some p => Returned p
  | None => Thrown ModuleNotFound
  end.

(** [v.extends] *)
Definition get_extends (v : json) : outcome (option json) :=
  match v with
  | JNull => Thrown TypeError
  | JObject m => Returned (m !! "extends")
  | JBool _ | JNumber _ | JString _ | JArray _ => Returned None
  end.

(** [x || []] *)
Definition or_empty_array (x : option json) : json :=
  match x with
  | Some v => if truthy v then v else JArray []
  | None => JArray []
  end.

(** [i < v.length] *)
Definition index_lt_length (i : nat) (v : json) : outcome bool :=
  match v with
  | JNull => Thrown TypeError
  | JBool _ | JNumber _ => Returned false
  | JString s => Returned (bool_decide (i < String.length s)%nat)
  | JArray l => Returned (bool_decide (i < length l)%nat)
  | JObject m =>
      match m !! "length" with
      | Some len => Returned (js_lt h i len)
      | None => Returned false
      end
  end.

(** [v[i]] *)
Definition get_index (v : json) (i : nat) : outcome (option json) :=
  match v with
  | JNull => Thrown TypeError
  | JBool _ | JNumber _ => Returned None
  | JString s => Returned ((λ c, JString (String c EmptyString)) <$> String.get i s)
  | JArray l => Returned (l !! i)
  | JObject m => Returned (m !! pretty i)
  end.

(** [x.indexOf(t)] *)
Definition call_indexOf (x : option json) (t : string) : outcome Z :=
  match x with
  | Some (JString s) => Returned (String_indexOf s t)
  | Some (JArray l) => Returned (Array_indexOf l t)
  | Some JNull | Some (JBool _) | Some (JNumber _) | Some (JObject _) | None =>
      Thrown TypeError
  end.
End Primitives.

(** ** Data shared by the two command modules *)

Inductive Mode : Type := Bundled | Legacy.

(** An upper bound on the iterations of the inspection loop over [v]
    (shown sufficient in [for_extends_terminates]). *)
Definition loop_bound (v : json) : nat :=
  match v with
  | JString s => S (String.length s)
  | JArray l => S (length l)
  | JObject m => S (size m)
  | JNull | JBool _ | JNumber _ => 1
  end.

(** [args[i] !== '--legacy' && args[i] !== '--dry-run' && args[i] !== '-d'] *)
Definition is_forwarded (a : string) : bool :=
  negb (String.eqb a "--legacy") && negb (String.eqb a "--dry-run")
  && negb (String.eqb a "-d").

(** ** src/command.ts *)

Module Command.
Section WithHost.
Context {Callback : Type}.
Variable h : host.

Definition isWindows : bool :=
  String.eqb (process_platform h) "win32"
  || match process_env_OSTYPE h with
     | Some ostype => String.eqb ostype "msys" || String.eqb ostype "cygwin"
     | None => false
     end.

(** The [for] loop of [detectMode]; [Some Bundled] is the [return] inside
    the loop, [None] is the loop running to its end. *)
Fixpoint for_extends (extendsArr : json) (fuel i : nat) : outcome (option Mode) :=
  match fuel with
  | O => OutOfFuel
  | S fuel' =>
      do continue <- index_lt_length h i extendsArr;
      if continue : bool then
        do entry <- get_index extendsArr i;
        do pos <- call_indexOf entry "tsds-config";
        if (0 <=? pos)%Z then ret (Some Bundled)
        else for_extends extendsArr fuel' (S i)
      else ret None
  end.

Definition detectMode (cwd : string) : M Callback Mode :=
  let biomeJsonPath := path_join h cwd "biome.json" in
  do present <- fs_existsSync h biomeJsonPath;
  if negb present then ret Bundled
  else
    do returned <-
      try_catch
        (do text <- fs_readFileSync h biomeJsonPath;
         do biomeJson <- lift (JSON_parse h text);
         do ext <- lift (get_extends biomeJson);
         let extendsArr := or_empty_array ext in
         lift (for_extends extendsArr (loop_bound extendsArr) 0))
        (λ _err, ret None);
    match returned with
    | Some mode => ret mode
    | None => ret Legacy
    end.

Definition resolveBiomeBin : outcome string :=
  call_resolveBin h "@biomejs/biome" "biome".

Definition resolveDefaultConfig : outcome (option string) :=
  try_catch
    (do p <- require_resolve h "tsds-config/biome.json"; ret (Some p))
    (λ _err, ret None).

(** The loop that appends the caller's arguments to [spawnArgs]. *)
Fixpoint push_args (spawnArgs args : list string) : list string :=
  match args with
  | [] => spawnArgs
  | a :: args' =>
      if is_forwarded a then push_args (spawnArgs ++ [a]) args'
      else push_args spawnArgs args'
  end.

Definition run (args : list string) (options : CommandOptions) (cb : Callback)
  : M Callback unit :=
  let cwd := match options_cwd options with
             | Some c => if truthy (JString c) then c else process_cwd h
             | None => process_cwd h
             end in
  let opts := getopts h args in
  if isWindows && (Array_indexOf [JString "x64"; JString "arm64"] (process_arch h) <? 0)%Z
  then callback cb
  else if opts_dry_run opts then
    exec console_log "Dry-run: would format code with biome";
    callback cb
  else if opts_legacy opts then
    exec console_log "[tsds-biome] Using legacy mode (npm run format)";
    spawn "npm" ["run"; "format"] (spread_with_cwd options cwd) cb
  else
    do mode <- detectMode cwd;
    match mode with
    | Legacy =>
        exec console_log "[tsds-biome] Using legacy mode (npm run format)";
        exec console_log "[tsds-biome] To migrate: extend tsds-config/biome.json in your biome.json";
        spawn "npm" ["run"; "format"] (spread_with_cwd options cwd) cb
    | Bundled =>
        do biomeBin <- lift resolveBiomeBin;
        let biomeJsonPath := path_join h cwd "biome.json" in
        let spawnArgs := ["check"; "--write"; "--unsafe"] in
        do present <- fs_existsSync h biomeJsonPath;
        do spawnArgs <-
          (if negb present then
             do defaultConfig <- lift resolveDefaultConfig;
             match defaultConfig with
             | Some p =>
                 if truthy (JString p) then ret (spawnArgs ++ ["--config-path"; p])
                 else ret spawnArgs
             | None => ret spawnArgs
             end
           else ret spawnArgs);
        spawn biomeBin (push_args spawnArgs args) (spread_with_cwd options cwd) cb
    end.
End WithHost.
End Command.

(** ** The sibling command module, with [worker] *)

Module Part000.
Section WithHost.
Context {Callback : Type}.
Variable h : host.

Definition isWindows : bool :=
  String.eqb (process_platform h) "win32"
  || match process_env_OSTYPE h with
     | Some ostype => String.eqb ostype "msys" || String.eqb ostype "cygwin"
     | None => false
     end.

(** The [for] loop of [detectMode]; [Some Bundled] is the [return] inside
    the loop, [None] is the loop running to its end. *)
Fixpoint for_extends (extendsArr : json) (fuel i : nat) : outcome (option Mode) :=
  match fuel with
  | O => OutOfFuel
  | S fuel' =>
      do continue <- index_lt_length h i extendsArr;
      if continue : bool then
        do entry <- get_index extendsArr i;
        do pos <- call_indexOf entry "tsds-config";
        if (0 <=? pos)%Z then ret (Some Bundled)
        else for_extends extendsArr fuel' (S i)
      else ret None
  end.

Definition detectMode (cwd : string) : M Callback Mode :=
  let biomeJsonPath := path_join h cwd "biome.json" in
  do present <- fs_existsSync h biomeJsonPath;
  if negb present then ret Bundled
  else
    do returned <-
      try_catch
        (do text <- fs_readFileSync h biomeJsonPath;
         do biomeJson <- lift (JSON_parse h text);
         do ext <- lift (get_extends biomeJson);
         let extendsArr := or_empty_array ext in
         lift (for_extends extendsArr (loop_bound extendsArr) 0))
        (λ _err, ret None);
    match returned with
    | Some mode => ret mode
    | None => ret Legacy
    end.

Definition resolveBiomeBin : outcome string :=
  call_resolveBin h "@biomejs/biome" "biome".

Definition resolveDefaultConfig : outcome (option string) :=
  try_catch
    (do p <- require_resolve h "tsds-config/biome.json"; ret (Some p))
    (λ _err, ret None).

(** The loop that appends the caller's arguments to [spawnArgs]. *)
Fixpoint push_args (spawnArgs args : list string) : list string :=
  match args with
  | [] => spawnArgs
  | a :: args' =>
      if is_forwarded a then push_args (spawnArgs ++ [a]) args'
      else push_args spawnArgs args'
  end.

Definition worker (args : list string) (options : CommandOptions) (cb : Callback)
  : M Callback unit :=
  let cwd := match options_cwd options with
             | Some c => if truthy (JString c) then c else process_cwd h
             | None => process_cwd h
             end in
  let opts := getopts h args in
  if isWindows && (Array_indexOf [JString "x64"; JString "arm64"] (process_arch h) <? 0)%Z
  then callback cb
  else if opts_dry_run opts then
    exec console_log "Dry-run: would format code with biome";
    callback cb
  else if opts_legacy opts then
    exec console_log "[tsds-biome] Using legacy mode (npm run format)";
    spawn "npm" ["run"; "format"] (spread_with_cwd options cwd) cb
  else
    do mode <- detectMode cwd;
    match mode with
    | Legacy =>
        exec console_log "[tsds-biome] Using legacy mode (npm run format)";
        exec console_log "[tsds-biome] To migrate: extend tsds-config/biome.json in your biome.json";
        spawn "npm" ["run"; "format"] (spread_with_cwd options cwd) cb
    | Bundled =>
        do biomeBin <- lift resolveBiomeBin;
        let biomeJsonPath := path_join h cwd "biome.json" in
        let spawnArgs := ["check"; "--write"; "--unsafe"] in
        do present <- fs_existsSync h biomeJsonPath;
        do spawnArgs <-
          (if negb present then
             do defaultConfig <- lift resolveDefaultConfig;
             match defaultConfig with
             | Some p =>
                 if truthy (JString p) then ret (spawnArgs ++ ["--config-path"; p])
                 else ret spawnArgs
             | None => ret spawnArgs
             end
           else ret spawnArgs);
        spawn biomeBin (push_args spawnArgs args) (spread_with_cwd options cwd) cb
    end.
End WithHost.
End Part000.

(** ** Concrete hosts, for examples *)

(** The arguments before the [--] that ends option parsing. *)
Fixpoint before_terminator (args : list string) : list string :=
  match args with
  | [] => []
  | a :: args' => if String.eqb a "--" then [] else a :: before_terminator args'
  end.

(** The plain reading of the flags when every option is a lone token (no
    grouped short options, no [=value], no [--no-] prefix). *)
Definition plain_getopts (args : list string) : parsed_opts :=
  let options := before_terminator args in
  {| opts_dry_run :=
       existsb (λ a, String.eqb a "--dry-run" || String.eqb a "-d") options;
     opts_legacy := existsb (String.eqb "--legacy") options |}.

Definition quoted (s : string) : string :=
  let q := String (Ascii.ascii_of_nat 34) EmptyString in q +:+ s +:+ q.

(** The text of an object with the single field [extends], an array with
    the given entries. *)
Definition extends_document (entries : string) : string :=
  "{" +:+ quoted "extends" +:+ ": [" +:+ entries +:+ "]}".

(** A few configuration texts with the values [JSON.parse] gives them. *)
Definition example_documents : list (string * json) :=
  [ (extends_document (quoted "./tsds-config/biome.json"),
     JObject {[ "extends" := JArray [JString "./tsds-config/biome.json"] ]});
    (extends_document (quoted "./base.json"),
     JObject {[ "extends" := JArray [JString "./base.json"] ]});
    (extends_document ("5, " +:+ quoted "tsds-config"),
     JObject {[ "extends" := JArray [JNumber 5; JString "tsds-config"] ]});
    (extends_document (quoted "tsds-config" +:+ ", 5"),
     JObject {[ "extends" := JArray [JString "tsds-config"; JNumber 5] ]});
    ("{}", JObject ∅) ].

Definition example_parse (text : string) : option json :=
  snd <$> find (λ d, String.eqb (fst d) text) example_documents.

(** [i < v] when [v] is a number. *)
Definition number_lt (i : nat) (v : json) : bool :=
  match v with
  | JNumber x => PrimFloat.ltb (PrimFloat.of_uint63 (Uint63.of_Z (Z.of_nat i))) x
  | _ => false
  end.

Definition linux_host (fs : gmap string fs_entry) (default_config : option string) : host :=
  {| files := fs;
     path_join := λ a b, a +:+ "/" +:+ b;
     json_parse := example_parse;
     js_lt := number_lt;
     process_cwd := "/work";
     process_platform := "linux";
     process_env_OSTYPE := None;
     process_arch := "x64";
     getopts := plain_getopts;
     resolveBin := λ _ _, Some "/pkg/node_modules/@biomejs/biome/bin/biome";
     module_path := λ _, default_config |}.

Definition windows_ia32_host (fs : gmap string fs_entry) : host :=
  {| files := fs;
     path_join := λ a b, a +:+ "/" +:+ b;
     json_parse := example_parse;
     js_lt := number_lt;
     process_cwd := "C:/work";
     process_platform := "win32";
     process_env_OSTYPE := None;
     process_arch := "ia32";
     getopts := plain_getopts;
     resolveBin := λ _ _, Some "C:/pkg/node_modules/@biomejs/biome/bin/biome";
     module_path := λ _, None |}.

Definition no_options : CommandOptions :=
  {| options_cwd := None; options_rest := ∅ |}.

(** A working directory holding one [biome.json] with the given text. *)
Definition project_with (text : string) : gmap string fs_entry :=
  {[ "/work/biome.json" := RegularFile text ]}.

(** ** The vocabulary of the specification *)

Module Spec.
(** [t] occurs somewhere in [s]. *)
Definition contains_substring (t s : string) : Prop :=
  ∃ a b, s = a +:+ t +:+ b.

(** The [extends] list of a parsed configuration; empty when the field
    is absent (or is no list). *)
Definition extends_list (v : json) : list json :=
  match v with
  | JObject m =>
      match m !! "extends" with
      | Some (JArray l) => l
      | _ => []
      end
  | _ => []
  end.

(** Some entry of the [extends] list contains the marker substring. *)
Definition has_marker_entry (v : json) : Prop :=
  ∃ s, JString s ∈ extends_list v ∧ contains_substring "tsds-config" s.

Definition is_string (v : json) : Prop := ∃ s, v = JString s.

(** The [extends] field is neither an object nor an array with an entry
    that is not a string. *)
Definition extends_of_strings (v : json) : Prop :=
  match v with
  | JObject m =>
      match m !! "extends" with
      | Some (JArray l) => Forall is_string l
      | Some (JObject _) => False
      | _ => True
      end
  | _ => True
  end.

(** A value on which [.indexOf] is not a function. *)
Definition lacks_indexOf (x : json) : Prop :=
  match x with
  | JNull | JBool _ | JNumber _ | JObject _ => True
  | JString _ | JArray _ => False
  end.

(** A value that is neither an array nor an object. *)
Definition is_primitive (x : json) : Prop :=
  match x with
  | JNull | JBool _ | JNumber _ | JString _ => True
  | JArray _ | JObject _ => False
  end.

(** A string entry that does not contain the marker. *)
Definition plain_entry (x : json) : Prop :=
  ∃ s, x = JString s ∧ ¬ contains_substring "tsds-config" s.
End Spec.

(** ** Notions used to state the results *)

(** The configuration file the code looks for. *)
Definition biome_json_path (h : host) (cwd : string) : string :=
  path_join h cwd "biome.json".

(** What the [try] block of [detectMode] does with the value
    [JSON.parse] returned. *)
Definition inspect (h : host) (biomeJson : json) : outcome (option Mode) :=
  do ext <- get_extends biomeJson;
  let extendsArr := or_empty_array ext in
  Command.for_extends h extendsArr (loop_bound extendsArr) 0.

(** The mode [detectMode] returns after its [try] block ended as [o]. *)
Definition mode_after (o : outcome (option Mode)) : Mode :=
  match o with
  | Returned (Some mode) => mode
  | Returned None | Thrown _ | OutOfFuel => Legacy
  end.

(** The mode [detectMode] returns, and the probes it makes on the way. *)
Definition detected_mode (h : host) (cwd : string) : Mode :=
  match files h !! biome_json_path h cwd with
  | None => Bundled
  | Some Unreadable => Legacy
  | Some (RegularFile text) =>
      match json_parse h text with
      | Some v => mode_after (inspect h v)
      | None => Legacy
      end
  end.

Definition probe_trace {Callback} (h : host) (cwd : string) : list (event Callback) :=
  EExistsSync (biome_json_path h cwd)
  :: match files h !! biome_json_path h cwd with
     | Some _ => [EReadFileSync (biome_json_path h cwd)]
     | None => []
     end.

(** The same host over another file system. *)
Definition with_files (h : host) (fs : gmap string fs_entry) : host :=
  {| files := fs;
     path_join := path_join h;
     json_parse := json_parse h;
     js_lt := js_lt h;
     process_cwd := process_cwd h;
     process_platform := process_platform h;
     process_env_OSTYPE := process_env_OSTYPE h;
     process_arch := process_arch h;
     getopts := getopts h;
     resolveBin := resolveBin h;
     module_path := module_path h |}.

(** The two implementations of the dispatch logic. *)
Inductive implementation : Type := CommandTs | WorkerVariant.

Definition detectMode_of {Callback} (impl : implementation)
  : host → string → M Callback Mode :=
  match impl with
  | CommandTs => Command.detectMode
  | WorkerVariant => Part000.detectMode
  end.

Definition dispatch_of {Callback} (impl : implementation)
  : host → list string → CommandOptions → Callback → M Callback unit :=
  match impl with
  | CommandTs => Command.run
  | WorkerVariant => Part000.worker
  end.

(** The dispatcher, as the specification describes it. *)
Module Dispatch.
(** The working directory the caller asks for: [options.cwd] when it is
    given and not empty, the directory of the process otherwise. *)
Definition caller_cwd (h : host) (options : CommandOptions) : string :=
  match options_cwd options with
  | Some c => if decide (c = "") then process_cwd h else c
  | None => process_cwd h
  end.

Definition windows_family (h : host) : Prop :=
  process_platform h = "win32"
  ∨ process_env_OSTYPE h = Some "msys"
  ∨ process_env_OSTYPE h = Some "cygwin".

Definition supported_arch (h : host) : Prop :=
  process_arch h = "x64" ∨ process_arch h = "arm64".

Definition unsupported_platform (h : host) : Prop :=
  windows_family h ∧ ¬ supported_arch h.

Definition dry_run_flag (h : host) (args : list string) : Prop :=
  opts_dry_run (getopts h args) = true.

Definition legacy_flag (h : host) (args : list string) : Prop :=
  opts_legacy (getopts h args) = true.

Definition control_flags : list string := ["--legacy"; "--dry-run"; "-d"].

(** The caller's arguments without the three control flags. *)
Definition forwarded (args : list string) : list string :=
  filter (λ a, a ∉ control_flags) args.

Definition base_arguments : list string := ["check"; "--write"; "--unsafe"].

(** The legacy action: [npm run format] in the caller's directory. *)
Definition legacy_action {Callback} (options : CommandOptions) (cwd : string)
    (cb : Callback) : event Callback :=
  ESpawn "npm" ["run"; "format"] (spread_with_cwd options cwd) cb.

(** The flag that points the formatter at the default configuration. *)
Definition config_path_flag (h : host) (cwd : string) : list string :=
  match files h !! biome_json_path h cwd, module_path h "tsds-config/biome.json" with
  | None, Some p => if decide (p = "") then [] else ["--config-path"; p]
  | _, _ => []
  end.

Inductive branch : Type :=
| UnsupportedPlatform
| DryRun
| ExplicitLegacy
| DetectedLegacy
| BundledFormatter.

(** Decision order of the dispatcher: first match wins. *)
Definition decide_branch (h : host) (args : list string) (options : CommandOptions)
  : branch :=
  if decide (unsupported_platform h) then UnsupportedPlatform
  else if opts_dry_run (getopts h args) then DryRun
  else if opts_legacy (getopts h args) then ExplicitLegacy
  else match detected_mode h (caller_cwd h options) with
       | Legacy => DetectedLegacy
       | Bundled => BundledFormatter
       end.

(** What each terminal branch does. *)
Definition branch_trace {Callback} (h : host) (args : list string)
    (options : CommandOptions) (cb : Callback) (b : branch) : list (event Callback) :=
  let cwd := caller_cwd h options in
  match b with
  | UnsupportedPlatform => [ECallback cb]
  | DryRun => [ELog "Dry-run: would format code with biome"; ECallback cb]
  | ExplicitLegacy =>
      [ELog "[tsds-biome] Using legacy mode (npm run format)";
       legacy_action options cwd cb]
  | DetectedLegacy =>
      probe_trace h cwd
      ++ [ELog "[tsds-biome] Using legacy mode (npm run format)";
          ELog "[tsds-biome] To migrate: extend tsds-config/biome.json in your biome.json";
          legacy_action options cwd cb]
  | BundledFormatter =>
      probe_trace h cwd
      ++ match resolveBin h "@biomejs/biome" "biome" with
         | Some biomeBin =>
             [EExistsSync (biome_json_path h cwd);
              ESpawn biomeBin
                (base_arguments ++ config_path_flag h cwd ++ forwarded args)
                (spread_with_cwd options cwd) cb]
         | None => []
         end
  end.

(** How each terminal branch ends: normally, except that the exception of
    [resolveBin] leaves the call. *)
Definition branch_outcome (h : host) (b : branch) : outcome unit :=
  match b with
  | BundledFormatter =>
      match resolveBin h "@biomejs/biome" "biome" with
      | Some _ => Returned tt
      | None => Thrown ModuleNotFound
      end
  | UnsupportedPlatform | DryRun | ExplicitLegacy | DetectedLegacy => Returned tt
  end.

(** The formatter binary resolves, if dispatch comes to need it. *)
Definition formatter_resolves (h : host) (args : list string)
    (options : CommandOptions) : Prop :=
  decide_branch h args options = BundledFormatter →
  is_Some (resolveBin h "@biomejs/biome" "biome").

Definition is_spawn {Callback} (e : event Callback) : bool :=
  match e with ESpawn _ _ _ _ => true | _ => false end.

Definition is_direct_callback {Callback} (e : event Callback) : bool :=
  match e with ECallback _ => true | _ => false end.

Definition is_fs_probe {Callback} (e : event Callback) : bool :=
  match e with EExistsSync _ | EReadFileSync _ => true | _ => false end.

(** How often a trace hands the completion callback on or calls it. *)
Definition spawn_count {Callback} (t : list (event Callback)) : nat :=
  length (filter (λ e, is_spawn e = true) t).

Definition callback_count {Callback} (t : list (event Callback)) : nat :=
  length (filter (λ e, is_direct_callback e = true) t).
End Dispatch.

(** ** Example projects *)

(** [extends] lists a number before the shared configuration. *)
Definition number_then_marker : string :=
  extends_document ("5, " +:+ quoted "tsds-config").

(** [extends] lists the shared configuration before a number. *)
Definition marker_then_number : string :=
  extends_document (quoted "tsds-config" +:+ ", 5").

(** [extends] lists the shared configuration only. *)
Definition shared_config_only : string :=
  extends_document (quoted "./tsds-config/biome.json").

(** [extends] lists a configuration of the project's own. *)
Definition own_config_only : string :=
  extends_document (quoted "./base.json").

(** A project without [biome.json], the default configuration installed. *)
Definition fresh_project : host := linux_host ∅ (Some "/pkg/node_modules/tsds-config/biome.json").

(** A project whose [biome.json] is not JSON. *)
Definition broken_project : host := linux_host (project_with "not json") None.

(** The same host on which the formatter package cannot be resolved. *)
Definition without_formatter (h : host) : host :=
  {| files := files h;
     path_join := path_join h;
     json_parse := json_parse h;
     js_lt := js_lt h;
     process_cwd := process_cwd h;
     process_platform := process_platform h;
     process_env_OSTYPE := process_env_OSTYPE h;
     process_arch := process_arch h;
     getopts := getopts h;
     resolveBin := λ _ _, None;
     module_path := module_path h |}.

(** ** Entries of an [extends] array *)

Module Entries.
(** The test [entry.indexOf('tsds-config') >= 0] succeeds on a string that
    contains the marker and on an array that has the marker as an element. *)
Definition matches_marker (x : json) : Prop :=
  match x with
  | JString s => Spec.contains_substring "tsds-config" s
  | JArray l => JString "tsds-config" ∈ l
  | JNull | JBool _ | JNumber _ | JObject _ => False
  end.

(** The values that have an [indexOf] method. *)
Definition has_indexOf (x : json) : Prop :=
  match x with
  | JString _ | JArray _ => True
  | JNull | JBool _ | JNumber _ | JObject _ => False
  end.

(** An entry the loop looks at and passes. *)
Definition stepped_over (x : json) : Prop :=
  has_indexOf x ∧ ¬ matches_marker x.
End Entries.

(** ** File system accesses in a trace *)

Module Access.




(** The path an access is made at. *)
Definition accessed_path {Callback} (e : event Callback) : option string :=
  match e with
  | EExistsSync p | EReadFileSync p => Some p
  | _ => None
  end.
End Access.

(** ** The exported entry points *)

(** What the module-level code reads besides the host: the version of the
    running Node, the module's own directory, and the conversion the unary
    [+] applies to a string. *)
Record runtime : Type := {
  versions_node : string;
  module_dirname : string;
  to_number : string → float
}.

(** [s.split('.')[0]]: what stands before the first dot (code 46). *)
Fixpoint first_component (s : string) : string :=
  match s with
  | EmptyString => EmptyString
  | String c s' =>
      if Ascii.eqb c (Ascii.ascii_of_nat 46) then EmptyString else String c (first_component s')
  end.

(** The two bridges to another runtime; what runs behind them is outside
    the model. *)
Inductive bridge : Type :=
| BindVersion (range file : string)    (* bind(range, file, { callbacks: true }) *)
| WrapWorker (file version : string).  (* wrapWorker(file)(version, ...) *)

(** What a call of [format] amounts to: the dispatch logic run in this
    process, or one call through a bridge. *)
Inductive entry (Callback : Type) : Type :=
| InProcess (m : M Callback unit)
| Delegated (via : bridge) (args : list string) (options : CommandOptions)
    (cb : Callback).
Arguments InProcess {Callback} m.
Arguments Delegated {Callback} via args options cb.

Module CommandEntry.
Section WithRuntime.
Context {Callback : Type}.
Variables (h : host) (rt : runtime).

Definition major : float := to_number rt (first_component (versions_node rt)).

Definition dist : string := path_join h (module_dirname rt) "..".

(** [worker], applied; [path.join] of three segments joins them in turn. *)
Definition worker (args : list string) (options : CommandOptions) (cb : Callback)
  : entry Callback :=
  if PrimFloat.leb 20 major then InProcess (Command.run h args options cb)
  else Delegated
         (BindVersion ">=20" (path_join h (path_join h dist "cjs") "command.js"))
         args options cb.

Definition format (args : list string) (options : CommandOptions) (cb : Callback)
  : entry Callback :=
  worker args options cb.
End WithRuntime.
End CommandEntry.

Module Part000Entry.
Section WithRuntime.
Context {Callback : Type}.
Variables (h : host) (rt : runtime).

Definition major : float := to_number rt (first_component (versions_node rt)).

Definition version : string := if PrimFloat.ltb 14 major then "local" else "stable".

Definition dist : string := path_join h (module_dirname rt) "..".

(** [workerWrapper], applied *)
Definition workerWrapper (version : string) (args : list string)
    (options : CommandOptions) (cb : Callback) : entry Callback :=
  Delegated
    (WrapWorker (path_join h (path_join h dist "cjs") "command.js") version)
    args options cb.

Definition format (args : list string) (options : CommandOptions) (cb : Callback)
  : entry Callback :=
  if negb (String.eqb version "local") then workerWrapper "stable" args options cb
  else InProcess (Part000.worker h args options cb).
End WithRuntime.
End Part000Entry.

(** ** A concrete runtime, for examples *)

Definition digit_value (c : Ascii.ascii) : option Z :=
  let n := Z.of_nat (Ascii.nat_of_ascii c) in
  if (48 <=? n) && (n <=? 57) then Some (n - 48) else None.

Fixpoint decimal_value (acc : Z) (s : string) : option Z :=
  match s with
  | EmptyString => Some acc
  | String c s' =>
      match digit_value c with
      | Some d => decimal_value (10 * acc + d) s'
      | None => None
      end
  end.

(** The unary [+] on the empty string and on strings of decimal digits
    (anything else is given NaN here). *)
Definition decimal_to_number (s : string) : float :=
  match s with
  | EmptyString => 0%float
  | String _ _ =>
      match decimal_value 0 s with
      | Some z => PrimFloat.of_uint63 (Uint63.of_Z z)
      | None => PrimFloat.nan
      end
  end.

Definition node_runtime (node_version : string) : runtime :=
  {| versions_node := node_version;
     module_dirname := "/pkg/node_modules/tsds-biome/dist/esm";
     to_number := decimal_to_number |}.

(** A project whose [biome.json] is a directory. *)
Definition directory_project : host :=
  linux_host {[ "/work/biome.json" := Unreadable ]} None.

(** The broken project with one more file beside [biome.json]. *)
Definition broken_project_files : gmap string fs_entry :=
  <["/work/package.json" := RegularFile "{}"]> (project_with "not json").

(** The same host with [JSON.parse] giving [v] on [text]. *)
Definition with_document (h : host) (text : string) (v : json) : host :=
  {| files := files h;
     path_join := path_join h;
     json_parse := λ t, if String.eqb t text then Some v else json_parse h t;
     js_lt := js_lt h;
     process_cwd := process_cwd h;
     process_platform := process_platform h;
     process_env_OSTYPE := process_env_OSTYPE h;
     process_arch := process_arch h;
     getopts := getopts h;
     resolveBin := resolveBin h;
     module_path := module_path h |}.

(** [extends] has an array entry holding the marker, after a plain string. *)
Definition nested_marker_text : string :=
  extends_document (quoted "./base.json" +:+ ", [" +:+ quoted "tsds-config" +:+ "]").

Definition nested_marker_value : json :=
  JObject {[ "extends" := JArray [JString "./base.json"; JArray [JString "tsds-config"]] ]}.

Definition nested_marker_project : host :=
  with_document (linux_host (project_with nested_marker_text) None)
    nested_marker_text nested_marker_value.

(** * Properties *)

(** ** Strings and arrays *)

Lemma append_nil_l (s : string) : "" +:+ s = s.
Proof. reflexivity. Qed.

Lemma append_cons (c : Ascii.ascii) (a s : string) :
  String c a +:+ s = String c (a +:+ s).
Proof. reflexivity. Qed.

Lemma prefix_app (t s : string) :
  String.prefix t s = true ↔ ∃ b, s = t +:+ b.
Proof.
  revert s; induction t as [|c t IH]; intros s.
  - split; [intros _; by exists s | intros _; by destruct s].
  - destruct s as [|d s]; simpl.
    + split; [done | intros [b Hb]; discriminate].
    + destruct (Ascii.ascii_dec c d) as [->|Hne].
      * rewrite IH. setoid_rewrite append_cons.
        split; intros [b Hb]; exists b; congruence.
      * split; [done | intros [b Hb]; rewrite append_cons in Hb; congruence].
Qed.

#[local] Arguments String.prefix : simpl never.

Lemma String_indexOf_lower (s t : string) : -1 ≤ String_indexOf s t.
Proof.
  induction s as [|c s IH]; simpl; destruct (String.prefix t _); try lia.
  destruct (Z.ltb_spec (String_indexOf s t) 0); lia.
Qed.

Lemma String_indexOf_found (s t : string) :
  0 ≤ String_indexOf s t ↔ Spec.contains_substring t s.
Proof.
  unfold Spec.contains_substring.
  induction s as [|c s IH]; simpl.
  - destruct (String.prefix t "") eqn:Hp.
    + split; [intros _ | lia].
      apply prefix_app in Hp as [b Hb]. by exists "", b.
    + split; [lia |]. intros (a & b & Hab).
      destruct a; [| discriminate]. rewrite append_nil_l in Hab.
      assert (String.prefix t "" = true) by (apply prefix_app; eauto).
      congruence.
  - destruct (String.prefix t (String c s)) eqn:Hp.
    + split; [intros _ | lia].
      apply prefix_app in Hp as [b Hb]. by exists "", b.
    + destruct (Z.ltb_spec (String_indexOf s t) 0) as [Hneg|Hpos].
      * split; [lia |]. intros (a & b & Hab). destruct a as [|d a].
        -- rewrite append_nil_l in Hab.
           assert (String.prefix t (String c s) = true) by (apply prefix_app; eauto).
           congruence.
        -- rewrite append_cons in Hab. injection Hab as -> ->.
           assert (0 ≤ String_indexOf (a +:+ t +:+ b) t) by (apply IH; eauto).
           lia.
      * split; [intros _ | lia].
        apply IH in Hpos as (a & b & ->). by exists (String c a), b.
Qed.

Lemma Array_indexOf_found (l : list json) (t : string) :
  0 ≤ Array_indexOf l t ↔ JString t ∈ l.
Proof.
  induction l as [|x l IH]; simpl.
  - split; [lia | by intros ?%elem_of_nil].
  - destruct (strict_equals_string x t) eqn:Hx.
    + split; [intros _ | lia].
      destruct x; try discriminate. simpl in Hx.
      apply String.eqb_eq in Hx as ->. left.
    + rewrite elem_of_cons.
      destruct (Z.ltb_spec (Array_indexOf l t) 0).
      * split; [lia |]. intros [<-|Hin].
        -- simpl in Hx. by rewrite String.eqb_refl in Hx.
        -- apply IH in Hin. lia.
      * split; [intros _; right; by apply IH | lia].
Qed.

#[local] Arguments String_indexOf : simpl never.
#[local] Arguments Array_indexOf : simpl never.

(** ** The inspection loop *)

Section InspectionLoop.
Variable h : host.

Lemma for_extends_array_end (l : list json) (fuel i : nat) :
  (length l ≤ i)%nat → Command.for_extends h (JArray l) (S fuel) i = Returned None.
Proof.
  intros Hi. simpl. rewrite bool_decide_eq_false_2 by lia. done.
Qed.

Lemma for_extends_array_step (l : list json) (fuel i : nat) (x : json) :
  l !! i = Some x →
  Command.for_extends h (JArray l) (S fuel) i =
    do pos <- call_indexOf (Some x) "tsds-config";
    if (0 <=? pos)%Z then Returned (Some Bundled)
    else Command.for_extends h (JArray l) fuel (S i).
Proof.
  intros Hx. simpl.
  rewrite bool_decide_eq_true_2 by (by eapply lookup_lt_Some).
  by rewrite Hx.
Qed.

Lemma for_extends_array_terminates (l : list json) (fuel i : nat) :
  (i ≤ length l)%nat → (length l < i + fuel)%nat →
  Command.for_extends h (JArray l) fuel i ≠ OutOfFuel.
Proof.
  revert i. induction fuel as [|fuel IH]; intros i Hi Hfuel; [lia |].
  destruct (l !! i) as [x|] eqn:Hx.
  - rewrite (for_extends_array_step _ _ _ x) by done.
    pose proof (lookup_lt_Some _ _ _ Hx).
    destruct (call_indexOf (Some x) "tsds-config") as [pos| |] eqn:Hcall;
      simpl; try done.
    + destruct (0 <=? pos)%Z; [done | apply IH; lia].
    + destruct x; discriminate Hcall.
  - apply lookup_ge_None in Hx. by rewrite for_extends_array_end.
Qed.

(** A string indexes into its code units, none of which is long enough
    to contain the marker. *)
Lemma String_get_lt (s : string) (i : nat) :
  (i < String.length s)%nat → ∃ c, String.get i s = Some c.
Proof.
  revert i. induction s as [|c s IH]; intros i Hi; simpl in Hi; [lia |].
  destruct i as [|i]; simpl; [eauto | apply IH; lia].
Qed.

Lemma String_indexOf_unit (c : Ascii.ascii) :
  String_indexOf (String c EmptyString) "tsds-config" = -1.
Proof.
  unfold String_indexOf, String.prefix.
  by destruct (Ascii.ascii_dec _ c).
Qed.

Lemma for_extends_string (s : string) (fuel i : nat) :
  (i ≤ String.length s)%nat → (String.length s < i + fuel)%nat →
  Command.for_extends h (JString s) fuel i = Returned None.
Proof.
  revert i. induction fuel as [|fuel IH]; intros i Hi Hfuel; [lia |].
  simpl. destruct (decide (i < String.length s)%nat) as [Hlt|Hge].
  - rewrite bool_decide_eq_true_2 by done.
    destruct (String_get_lt s i Hlt) as [c ->]. simpl.
    rewrite String_indexOf_unit. simpl. apply IH; lia.
  - by rewrite bool_decide_eq_false_2.
Qed.

(** An object can be walked only as far as it has the keys 0, 1, 2, ... *)
Lemma keys_bound (m : gmap string json) (i : nat) :
  (∀ j, (j < i)%nat → is_Some (m !! pretty j)) → (i ≤ size m)%nat.
Proof.
  intros Hkeys.
  set (ks := list_to_set (pretty <$> seq 0 i) : gset string).
  assert (ks ⊆ dom m) as Hsub.
  { intros k Hk. apply elem_of_list_to_set, list_elem_of_fmap in Hk as (j & -> & Hj).
    apply elem_of_seq in Hj. apply elem_of_dom, Hkeys. lia. }
  apply subseteq_size in Hsub. rewrite size_dom in Hsub.
  unfold ks in Hsub. rewrite size_list_to_set in Hsub.
  - by rewrite length_fmap, length_seq in Hsub.
  - apply NoDup_fmap_2; [apply _ | apply NoDup_seq].
Qed.

Lemma for_extends_object_terminates (m : gmap string json) (fuel i : nat) :
  (∀ j, (j < i)%nat → is_Some (m !! pretty j)) → (size m < i + fuel)%nat →
  Command.for_extends h (JObject m) fuel i ≠ OutOfFuel.
Proof.
  revert i. induction fuel as [|fuel IH]; intros i Hkeys Hfuel.
  - apply keys_bound in Hkeys. lia.
  - simpl. destruct (m !! "length") as [len|]; simpl; [| done].
    destruct (js_lt h i len); [| done].
    destruct (m !! pretty i) as [x|] eqn:Hx; simpl; [| done].
    assert (∀ j, (j < S i)%nat → is_Some (m !! pretty j)) as Hkeys'.
    { intros j Hj. destruct (decide (j = i)) as [->|]; [eauto | apply Hkeys; lia]. }
    destruct x; simpl; try done;
      (destruct (0 <=? _)%Z; [done | apply IH; [done | lia]]).
Qed.

(** Entries that are strings without the marker are stepped over. *)
Lemma for_extends_array_skip (l : list json) (k : nat) :
  (∀ j, (j < k)%nat →
     ∃ s, l !! j = Some (JString s) ∧ ¬ Spec.contains_substring "tsds-config" s) →
  ∀ n i fuel, (i + n = k)%nat →
    Command.for_extends h (JArray l) (n + fuel) i
    = Command.for_extends h (JArray l) fuel k.
Proof.
  intros Hpre. induction n as [|n IH]; intros i fuel Hk.
  - by replace k with i by lia.
  - destruct (Hpre i) as (s & Hs & Hno); [lia |].
    replace (S n + fuel)%nat with (S (n + fuel)) by lia.
    rewrite (for_extends_array_step _ _ _ _ Hs). simpl.
    destruct (Z.leb_spec 0 (String_indexOf s "tsds-config")) as [Hpos|_].
    + by apply String_indexOf_found in Hpos.
    + apply IH. lia.
Qed.

(** On an array of strings the loop finds the marker exactly when some
    entry contains it. *)
Lemma for_extends_strings (l : list json) (fuel i : nat) :
  Forall Spec.is_string l →
  (i ≤ length l)%nat → (length l < i + fuel)%nat →
  (Command.for_extends h (JArray l) fuel i = Returned (Some Bundled)
   ∧ ∃ j s, (i ≤ j)%nat ∧ l !! j = Some (JString s)
            ∧ Spec.contains_substring "tsds-config" s)
  ∨ (Command.for_extends h (JArray l) fuel i = Returned None
     ∧ ∀ j s, (i ≤ j)%nat → l !! j = Some (JString s) →
              ¬ Spec.contains_substring "tsds-config" s).
Proof.
  intros Hstr. revert i. induction fuel as [|fuel IH]; intros i Hi Hfuel; [lia |].
  destruct (l !! i) as [x|] eqn:Hx.
  - rewrite (for_extends_array_step _ _ _ _ Hx).
    pose proof (lookup_lt_Some _ _ _ Hx).
    destruct (proj1 (Forall_lookup _ _) Hstr _ _ Hx) as [s ->]. simpl.
    destruct (Z.leb_spec 0 (String_indexOf s "tsds-config")) as [Hpos|Hneg].
    + left. split; [done |]. exists i, s.
      by rewrite <- String_indexOf_found.
    + destruct (IH (S i)) as [(-> & j & s' & ? & ? & ?)|(-> & Hnone)]; [lia | lia | |].
      * left. split; [done |]. exists j, s'. split; [lia | done].
      * right. split; [done |]. intros j s' Hj Hs'.
        destruct (decide (j = i)) as [->|].
        -- assert (s' = s) as -> by congruence.
           rewrite <- String_indexOf_found. lia.
        -- apply (Hnone j); [lia | done].
  - apply lookup_ge_None in Hx. rewrite for_extends_array_end by done.
    right. split; [done |]. intros j s Hj Hs.
    apply lookup_lt_Some in Hs. lia.
Qed.

Lemma for_extends_terminates (v : json) :
  Command.for_extends h v (loop_bound v) 0 ≠ OutOfFuel.
Proof.
  destruct v; simpl loop_bound; try done.
  - rewrite for_extends_string; [done | lia | lia].
  - apply for_extends_array_terminates; lia.
  - apply for_extends_object_terminates; [intros; lia | lia].
Qed.
End InspectionLoop.

#[local] Arguments Command.for_extends : simpl never.

(** ** detectMode *)

Section DetectMode.
Context {Callback : Type}.
Variable h : host.

Lemma existsSync_absent (p : string) :
  files h !! p = None →
  fs_existsSync (Callback:=Callback) h p = ([EExistsSync p], Returned false).
Proof.
  intros Hnone. unfold fs_existsSync. rewrite Hnone.
  rewrite bool_decide_eq_false_2 by (by intros [? ?]). done.
Qed.

Lemma existsSync_present (p : string) (e : fs_entry) :
  files h !! p = Some e →
  fs_existsSync (Callback:=Callback) h p = ([EExistsSync p], Returned true).
Proof.
  intros Hsome. unfold fs_existsSync. rewrite Hsome.
  rewrite bool_decide_eq_true_2 by eauto. done.
Qed.

(** With [extends] absent or an array of strings, the inspection finds
    the marker exactly when the specification's list has it. *)
Lemma inspect_strings (v : json) :
  Spec.extends_of_strings v →
  mode_after (inspect h v) = Bundled ↔ Spec.has_marker_entry v.
Proof.
  assert (∀ w, Spec.extends_list w = [] → ¬ Spec.has_marker_entry w) as Hempty.
  { intros w Hw (s & Hin & _). rewrite Hw in Hin. by apply elem_of_nil in Hin. }
  intros Hwf. unfold inspect.
  destruct v as [| | | | |m]; simpl; try (split; [done | by intros ?%Hempty]).
  simpl in Hwf. unfold Spec.has_marker_entry. simpl.
  destruct (m !! "extends") as [[|b|x|s|l|m']|] eqn:Hext; simpl;
    try (split; [done | by intros (? & ?%elem_of_nil & _)]).
  - destruct b; simpl; (split; [done | by intros (? & ?%elem_of_nil & _)]).
  - destruct (negb _); simpl; (split; [done | by intros (? & ?%elem_of_nil & _)]).
  - destruct (negb _); simpl; [| split; [done | by intros (? & ?%elem_of_nil & _)]].
    rewrite for_extends_string by lia. simpl.
    split; [done | by intros (? & ?%elem_of_nil & _)].
  - destruct (for_extends_strings h l (S (length l)) 0 Hwf)
      as [(-> & j & s & _ & Hj & Hs)|(-> & Hnone)]; [lia | lia | |]; simpl.
    + split; [intros _ | done]. exists s. split; [| done].
      apply list_elem_of_lookup. eauto.
    + split; [done |]. intros (s & Hin & Hs).
      apply list_elem_of_lookup in Hin as [j Hj].
      destruct (Hnone j s); [lia | done | done].
Qed.

(** An entry without [.indexOf], reached after plain entries only, ends
    the inspection with a TypeError. *)
Lemma inspect_array_throws (m : gmap string json) (pre post : list json) (x : json) :
  m !! "extends" = Some (JArray (pre ++ x :: post)) →
  Forall Spec.plain_entry pre →
  Spec.lacks_indexOf x →
  inspect h (JObject m) = Thrown TypeError.
Proof.
  intros Hext Hpre Hx. unfold inspect. simpl. rewrite Hext. simpl.
  rewrite length_app. simpl.
  replace (S (length pre + S (length post)))
    with (length pre + S (S (length post)))%nat by lia.
  rewrite (for_extends_array_skip h _ (length pre)); [| | lia].
  - rewrite (for_extends_array_step _ _ _ _ x).
    + destruct x; simpl in *; done.
    + by rewrite list_lookup_middle.
  - intros j Hj. destruct (lookup_lt_is_Some_2 pre j Hj) as [e He].
    destruct (proj1 (Forall_lookup _ _) Hpre _ _ He) as (s & -> & Hs).
    exists s. split; [| done]. by rewrite lookup_app_l.
Qed.

(** A string entry with the marker, reached after plain entries only, ends
    the inspection with Bundled, whatever follows it. *)
Lemma inspect_array_finds (m : gmap string json) (pre post : list json) (s : string) :
  m !! "extends" = Some (JArray (pre ++ JString s :: post)) →
  Forall Spec.plain_entry pre →
  Spec.contains_substring "tsds-config" s →
  inspect h (JObject m) = Returned (Some Bundled).
Proof.
  intros Hext Hpre Hs. unfold inspect. simpl. rewrite Hext. simpl.
  rewrite length_app. simpl.
  replace (S (length pre + S (length post)))
    with (length pre + S (S (length post)))%nat by lia.
  rewrite (for_extends_array_skip h _ (length pre)); [| | lia].
  - rewrite (for_extends_array_step _ _ _ _ (JString s)).
    + simpl. apply String_indexOf_found in Hs.
      by rewrite (proj2 (Z.leb_le 0 _) Hs).
    + by rewrite list_lookup_middle.
  - intros j Hj. destruct (lookup_lt_is_Some_2 pre j Hj) as [e He].
    destruct (proj1 (Forall_lookup _ _) Hpre _ _ He) as (s' & -> & Hs').
    exists s'. split; [| done]. by rewrite lookup_app_l.
Qed.

(** An [extends] that is neither an array nor an object never matches. *)
Lemma inspect_primitive (m : gmap string json) (x : json) :
  m !! "extends" = Some x →
  Spec.is_primitive x →
  mode_after (inspect h (JObject m)) = Legacy.
Proof.
  intros Hext Hx. unfold inspect. simpl. rewrite Hext.
  destruct x as [|b|x|s| |]; simpl in *; try done.
  - by destruct b.
  - by destruct (negb _).
  - destruct (negb _); [| done]. simpl. by rewrite for_extends_string by lia.
Qed.

Lemma detectMode_absent (cwd : string) :
  files h !! biome_json_path h cwd = None →
  Command.detectMode (Callback:=Callback) h cwd
  = ([EExistsSync (biome_json_path h cwd)], Returned Bundled).
Proof.
  intros Hnone. unfold Command.detectMode. fold (biome_json_path h cwd).
  by rewrite existsSync_absent.
Qed.

Lemma detectMode_unreadable (cwd : string) :
  files h !! biome_json_path h cwd = Some Unreadable →
  Command.detectMode (Callback:=Callback) h cwd
  = ([EExistsSync (biome_json_path h cwd); EReadFileSync (biome_json_path h cwd)],
     Returned Legacy).
Proof.
  intros Hfile. unfold Command.detectMode. fold (biome_json_path h cwd).
  rewrite (existsSync_present _ _ Hfile). unfold fs_readFileSync.
  by rewrite Hfile.
Qed.

Lemma detectMode_unparsable (cwd text : string) :
  files h !! biome_json_path h cwd = Some (RegularFile text) →
  json_parse h text = None →
  Command.detectMode (Callback:=Callback) h cwd
  = ([EExistsSync (biome_json_path h cwd); EReadFileSync (biome_json_path h cwd)],
     Returned Legacy).
Proof.
  intros Hfile Hparse. unfold Command.detectMode. fold (biome_json_path h cwd).
  rewrite (existsSync_present _ _ Hfile). unfold fs_readFileSync, JSON_parse.
  rewrite Hfile. simpl. by rewrite Hparse.
Qed.

Lemma inspect_terminates (v : json) : inspect h v ≠ OutOfFuel.
Proof.
  unfold inspect. destruct (get_extends v) as [ext| |] eqn:Hext; simpl; try done.
  - apply for_extends_terminates.
  - destruct v; discriminate Hext.
Qed.

Lemma detectMode_parsed (cwd text : string) (v : json) :
  files h !! biome_json_path h cwd = Some (RegularFile text) →
  json_parse h text = Some v →
  Command.detectMode (Callback:=Callback) h cwd
  = ([EExistsSync (biome_json_path h cwd); EReadFileSync (biome_json_path h cwd)],
     Returned (mode_after (inspect h v))).
Proof.
  intros Hfile Hparse. pose proof (inspect_terminates v) as Hterm.
  unfold Command.detectMode. fold (biome_json_path h cwd).
  rewrite (existsSync_present _ _ Hfile). unfold fs_readFileSync, JSON_parse.
  rewrite Hfile. simpl. rewrite Hparse. simpl.
  unfold inspect in *.
  destruct (get_extends v) as [ext| |]; simpl in *; try done.
  destruct (Command.for_extends h _ _ 0) as [[mode|]| |]; simpl; done.
Qed.

(** [detectMode] always returns, having only probed the file system. *)
Lemma detectMode_returns (cwd : string) :
  ∃ reads mode,
    Command.detectMode (Callback:=Callback) h cwd
    = (EExistsSync (biome_json_path h cwd) :: reads, Returned mode)
    ∧ (reads = [] ∨ reads = [EReadFileSync (biome_json_path h cwd)]).
Proof.
  destruct (files h !! biome_json_path h cwd) as [[text|]|] eqn:Hfile.
  - destruct (json_parse h text) as [v|] eqn:Hparse.
    + erewrite detectMode_parsed by done. eauto.
    + erewrite detectMode_unparsable by done. eauto.
  - rewrite detectMode_unreadable by done. eauto.
  - rewrite detectMode_absent by done. eauto.
Qed.
End DetectMode.

(** ** The dispatcher *)

Section Dispatcher.
Context {Callback : Type}.
Variable h : host.

Lemma detectMode_eq (cwd : string) :
  Command.detectMode (Callback:=Callback) h cwd
  = (probe_trace h cwd, Returned (detected_mode h cwd)).
Proof.
  unfold probe_trace, detected_mode.
  destruct (files h !! biome_json_path h cwd) as [[text|]|] eqn:Hfile.
  - destruct (json_parse h text) as [v|] eqn:Hparse.
    + by erewrite detectMode_parsed.
    + by erewrite detectMode_unparsable.
  - by rewrite detectMode_unreadable.
  - by rewrite detectMode_absent.
Qed.

Lemma isWindows_family : Command.isWindows h = bool_decide (Dispatch.windows_family h).
Proof.
  unfold Command.isWindows, Dispatch.windows_family.
  destruct (String.eqb_spec (process_platform h) "win32") as [Hp|Hp]; simpl.
  { rewrite bool_decide_eq_true_2; [done | by left]. }
  destruct (process_env_OSTYPE h) as [ostype|].
  - destruct (String.eqb_spec ostype "msys") as [Hm|Hm]; simpl.
    { rewrite bool_decide_eq_true_2; [done | right; left; by rewrite Hm]. }
    destruct (String.eqb_spec ostype "cygwin") as [Hc|Hc]; simpl.
    { rewrite bool_decide_eq_true_2; [done | right; right; by rewrite Hc]. }
    rewrite bool_decide_eq_false_2; [done |]. intros [?|[?|?]]; congruence.
  - rewrite bool_decide_eq_false_2; [done |]. intros [?|[?|?]]; congruence.
Qed.

Lemma arch_guard :
  (Array_indexOf [JString "x64"; JString "arm64"] (process_arch h) <? 0)%Z
  = bool_decide (¬ Dispatch.supported_arch h).
Proof.
  unfold Dispatch.supported_arch, Array_indexOf, strict_equals_string.
  rewrite (String.eqb_sym "x64"), (String.eqb_sym "arm64").
  destruct (String.eqb_spec (process_arch h) "x64") as [Hx|Hx]; simpl.
  { rewrite bool_decide_eq_false_2; [done |]. intros Hn. apply Hn. by left. }
  destruct (String.eqb_spec (process_arch h) "arm64") as [Ha|Ha]; simpl.
  { rewrite bool_decide_eq_false_2; [done |]. intros Hn. apply Hn. by right. }
  rewrite bool_decide_eq_true_2; [done |]. intros [?|?]; congruence.
Qed.

Lemma platform_guard :
  Command.isWindows h
  && (Array_indexOf [JString "x64"; JString "arm64"] (process_arch h) <? 0)%Z
  = bool_decide (Dispatch.unsupported_platform h).
Proof.
  rewrite isWindows_family, arch_guard. unfold Dispatch.unsupported_platform.
  repeat case_bool_decide; simpl; tauto.
Qed.

Lemma cwd_or_process_cwd (options : CommandOptions) :
  match options_cwd options with
  | Some c => if truthy (JString c) then c else process_cwd h
  | None => process_cwd h
  end = Dispatch.caller_cwd h options.
Proof.
  unfold Dispatch.caller_cwd. destruct (options_cwd options) as [c|]; [| done].
  simpl. destruct (String.eqb_spec c ""); by case_decide.
Qed.

Lemma is_forwarded_spec (a : string) :
  is_forwarded a = true ↔ a ∉ Dispatch.control_flags.
Proof.
  unfold is_forwarded, Dispatch.control_flags.
  rewrite !andb_true_iff, !negb_true_iff, !not_elem_of_cons.
  destruct (String.eqb_spec a "--legacy"), (String.eqb_spec a "--dry-run"),
    (String.eqb_spec a "-d"); split; try tauto; try (intros [[? ?] ?]; done).
  intros _. repeat split; by try apply not_elem_of_nil.
Qed.

(** The copying loop keeps what was there and appends the forwarded
    arguments in their order. *)
Lemma push_args_forwarded (spawnArgs args : list string) :
  Command.push_args spawnArgs args = spawnArgs ++ Dispatch.forwarded args.
Proof.
  unfold Dispatch.forwarded.
  revert spawnArgs. induction args as [|a args IH]; intros spawnArgs; simpl.
  - by rewrite app_nil_r.
  - destruct (is_forwarded a) eqn:Ha.
    + apply is_forwarded_spec in Ha.
      rewrite filter_cons_True by done. rewrite IH. by rewrite <- app_assoc.
    + rewrite filter_cons_False; [apply IH |].
      intros Hin%is_forwarded_spec. congruence.
Qed.

Lemma resolveDefaultConfig_eq :
  Command.resolveDefaultConfig h = Returned (module_path h "tsds-config/biome.json").
Proof.
  unfold Command.resolveDefaultConfig, require_resolve.
  by destruct (module_path h _).
Qed.
Lemma resolveBiomeBin_eq :
  Command.resolveBiomeBin h
  = match resolveBin h "@biomejs/biome" "biome" with
    | Some biomeBin => Returned biomeBin
    | None => Thrown ModuleNotFound
    end.
Proof. reflexivity. Qed.

(** [run] does what the branch chosen by the decision order does, and ends
    as that branch ends. *)
Lemma run_eq (args : list string) (options : CommandOptions) (cb : Callback) :
  Command.run h args options cb
  = (Dispatch.branch_trace h args options cb (Dispatch.decide_branch h args options),
     Dispatch.branch_outcome h (Dispatch.decide_branch h args options)).
Proof.
  unfold Command.run, Dispatch.decide_branch.
  rewrite platform_guard, cwd_or_process_cwd.
  destruct (decide (Dispatch.unsupported_platform h)) as [Hu|Hu].
  { by rewrite bool_decide_eq_true_2. }
  rewrite bool_decide_eq_false_2 by done.
  destruct (opts_dry_run _); [done |].
  destruct (opts_legacy _); [done |].
  rewrite detectMode_eq.
  destruct (detected_mode h _) eqn:Hmode; [| done].
  unfold Dispatch.branch_trace, Dispatch.branch_outcome, Dispatch.config_path_flag,
    Dispatch.base_arguments.
  fold (biome_json_path h (Dispatch.caller_cwd h options)).
  rewrite resolveDefaultConfig_eq, resolveBiomeBin_eq.
  destruct (resolveBin h "@biomejs/biome" "biome") as [biomeBin|].
  2: { simpl. by rewrite app_nil_r. }
  destruct (files h !! biome_json_path h (Dispatch.caller_cwd h options)) as [e|] eqn:Hfile.
  - simpl. rewrite Hfile. simpl.
    rewrite push_args_forwarded. done.
  - simpl. rewrite Hfile. simpl.
    destruct (module_path h _) as [p|]; simpl.
    + destruct (String.eqb_spec p ""); case_decide; try done; simpl;
        rewrite push_args_forwarded; done.
    + rewrite push_args_forwarded. done.
Qed.

(** The sibling module holds the same code. *)
Lemma Part000_detectMode_same (cwd : string) :
  Part000.detectMode (Callback:=Callback) h cwd = Command.detectMode h cwd.
Proof. reflexivity. Qed.

Lemma Part000_worker_same (args : list string) (options : CommandOptions) (cb : Callback) :
  Part000.worker h args options cb = Command.run h args options cb.
Proof. reflexivity. Qed.

Lemma detectMode_of_eq (impl : implementation) (cwd : string) :
  detectMode_of (Callback:=Callback) impl h cwd
  = (probe_trace h cwd, Returned (detected_mode h cwd)).
Proof.
  destruct impl; simpl; [| rewrite Part000_detectMode_same]; apply detectMode_eq.
Qed.

Lemma dispatch_of_eq (impl : implementation) (args : list string)
    (options : CommandOptions) (cb : Callback) :
  dispatch_of impl h args options cb
  = (Dispatch.branch_trace h args options cb (Dispatch.decide_branch h args options),
     Dispatch.branch_outcome h (Dispatch.decide_branch h args options)).
Proof.
  destruct impl; simpl; [| rewrite Part000_worker_same]; apply run_eq.
Qed.

(** The five branches leave five different traces. *)
Lemma branch_trace_inj (args : list string) (options : CommandOptions) (cb : Callback)
    (b1 b2 : Dispatch.branch) :
  Dispatch.branch_trace h args options cb b1 = Dispatch.branch_trace h args options cb b2 →
  b1 = b2.
Proof.
  unfold Dispatch.branch_trace, probe_trace.
  destruct (files h !! _); destruct (resolveBin h _ _); destruct b1, b2; simpl;
    intros Heq; congruence.
Qed.

(** A branch that ends normally has completed once; the one that does not
    has not completed. *)
Lemma branch_trace_completes (args : list string) (options : CommandOptions)
    (cb : Callback) (b : Dispatch.branch) :
  (Dispatch.spawn_count (Dispatch.branch_trace h args options cb b)
   + Dispatch.callback_count (Dispatch.branch_trace h args options cb b)
   = match Dispatch.branch_outcome h b with
     | Returned _ => 1
     | Thrown _ | OutOfFuel => 0
     end)%nat.
Proof.
  unfold Dispatch.branch_trace, Dispatch.branch_outcome, probe_trace,
    Dispatch.spawn_count, Dispatch.callback_count.
  destruct (files h !! _); destruct (resolveBin h _ _); destruct b; reflexivity.
Qed.

Lemma branch_outcome_resolves (args : list string) (options : CommandOptions) :
  Dispatch.branch_outcome h (Dispatch.decide_branch h args options) = Returned tt
  ↔ Dispatch.formatter_resolves h args options.
Proof.
  unfold Dispatch.formatter_resolves, Dispatch.branch_outcome.
  destruct (Dispatch.decide_branch h args options); try (split; done).
  destruct (resolveBin h _ _) as [biomeBin|].
  - split; [eauto | done].
  - split; [done |]. intros Hsome. by destruct (Hsome eq_refl).
Qed.

Lemma branch_completes_resolves (args : list string) (options : CommandOptions)
    (cb : Callback) :
  (Dispatch.spawn_count
     (Dispatch.branch_trace h args options cb (Dispatch.decide_branch h args options))
   + Dispatch.callback_count
       (Dispatch.branch_trace h args options cb (Dispatch.decide_branch h args options))
   = 1)%nat
  ↔ Dispatch.formatter_resolves h args options.
Proof.
  rewrite branch_trace_completes, <- branch_outcome_resolves.
  destruct (Dispatch.branch_outcome h _) as [[]| |]; split; done.
Qed.

Lemma branch_trace_callback (args : list string) (options : CommandOptions)
    (cb cb' : Callback) (b : Dispatch.branch) :
  (ECallback cb' ∈ Dispatch.branch_trace h args options cb b → cb' = cb)
  ∧ (∀ command spawnArgs spawnOptions,
       ESpawn command spawnArgs spawnOptions cb'
         ∈ Dispatch.branch_trace h args options cb b → cb' = cb).
Proof.
  unfold Dispatch.branch_trace, probe_trace, Dispatch.legacy_action.
  split; [| intros command spawnArgs spawnOptions];
    destruct (files h !! _); destruct (resolveBin h _ _); destruct b; simpl;
    intros Hin;
    repeat (apply elem_of_cons in Hin as [Hin|Hin]; [congruence |]);
    by apply elem_of_nil in Hin.
Qed.
End Dispatcher.

(** ** Worked examples *)

(** No [biome.json], arguments [--fix]: the formatter runs on the default
    configuration. *)
Example example_no_config :
  Command.run (Callback:=unit) fresh_project ["--fix"] no_options tt
  = ([EExistsSync "/work/biome.json"; EExistsSync "/work/biome.json";
      ESpawn "/pkg/node_modules/@biomejs/biome/bin/biome"
        ["check"; "--write"; "--unsafe";
         "--config-path"; "/pkg/node_modules/tsds-config/biome.json"; "--fix"]
        {| options_cwd := Some "/work"; options_rest := ∅ |} tt],
     Returned tt).
Proof. reflexivity. Qed.

(** [biome.json] extends the shared configuration, no arguments: the
    formatter runs without the configuration flag. *)
Example example_shared_config :
  Part000.worker (Callback:=unit) (linux_host (project_with shared_config_only) None)
    [] no_options tt
  = ([EExistsSync "/work/biome.json"; EReadFileSync "/work/biome.json";
      EExistsSync "/work/biome.json";
      ESpawn "/pkg/node_modules/@biomejs/biome/bin/biome"
        ["check"; "--write"; "--unsafe"]
        {| options_cwd := Some "/work"; options_rest := ∅ |} tt],
     Returned tt).
Proof. reflexivity. Qed.

(** [biome.json] extends something else: the project's own script runs. *)
Example example_own_config :
  Command.run (Callback:=unit) (linux_host (project_with own_config_only) None)
    ["--fix"] no_options tt
  = ([EExistsSync "/work/biome.json"; EReadFileSync "/work/biome.json";
      ELog "[tsds-biome] Using legacy mode (npm run format)";
      ELog "[tsds-biome] To migrate: extend tsds-config/biome.json in your biome.json";
      ESpawn "npm" ["run"; "format"]
        {| options_cwd := Some "/work"; options_rest := ∅ |} tt],
     Returned tt).
Proof. reflexivity. Qed.

(** Invalid [biome.json]: [npm run format], detected or asked for. *)
Example example_invalid_config :
  Command.run (Callback:=unit) broken_project [] no_options tt
  = ([EExistsSync "/work/biome.json"; EReadFileSync "/work/biome.json";
      ELog "[tsds-biome] Using legacy mode (npm run format)";
      ELog "[tsds-biome] To migrate: extend tsds-config/biome.json in your biome.json";
      ESpawn "npm" ["run"; "format"]
        {| options_cwd := Some "/work"; options_rest := ∅ |} tt],
     Returned tt)
  ∧ Command.run (Callback:=unit) broken_project ["--legacy"] no_options tt
    = ([ELog "[tsds-biome] Using legacy mode (npm run format)";
        ESpawn "npm" ["run"; "format"]
          {| options_cwd := Some "/work"; options_rest := ∅ |} tt],
       Returned tt).
Proof. split; reflexivity. Qed.

(** Three shapes of [extends] outside the configuration contract: an
    object that looks like an array and an entry that is itself an array
    are walked like lists of strings; a string is walked unit by unit and
    never matches. *)
Example example_array_like_extends :
  inspect fresh_project
    (JObject {[ "extends" :=
                  JObject {[ "length" := JNumber 1; "0" := JString "tsds-config" ]} ]})
  = Returned (Some Bundled).
Proof. vm_compute. reflexivity. Qed.

Example example_nested_array_entry :
  inspect fresh_project
    (JObject {[ "extends" := JArray [JArray [JString "tsds-config"]] ]})
  = Returned (Some Bundled).
Proof. vm_compute. reflexivity. Qed.

Example example_string_extends :
  inspect fresh_project (JObject {[ "extends" := JString "tsds-config" ]})
  = Returned None.
Proof. vm_compute. reflexivity. Qed.

(** * The claims *)

(** ** Mode detection *)

(** C1: in a working directory with no file at [biome.json], [detectMode]
    returns Bundled (after the one existence probe), in both
    implementations. *)
Theorem detectMode_without_config {Callback : Type} (impl : implementation)
    (h : host) (cwd : string) :
  files h !! biome_json_path h cwd = None →
  detectMode_of (Callback:=Callback) impl h cwd
  = ([EExistsSync (biome_json_path h cwd)], Returned Bundled).
Proof.
  intros Hnone. rewrite detectMode_of_eq.
  unfold probe_trace, detected_mode. by rewrite Hnone.
Qed.

Lemma detectMode_without_config_witness :
  files fresh_project !! biome_json_path fresh_project "/work" = None
  ∧ detectMode_of (Callback:=unit) CommandTs fresh_project "/work"
    = ([EExistsSync "/work/biome.json"], Returned Bundled).
Proof.
  split; [reflexivity |].
  apply (detectMode_without_config (Callback:=unit) CommandTs fresh_project "/work").
  reflexivity.
Defined.

(** C2: when [biome.json] exists and its text does not parse as JSON,
    [detectMode] returns Legacy; the SyntaxError is caught inside and the
    call ends normally. *)
Theorem detectMode_parse_failure {Callback : Type} (impl : implementation)
    (h : host) (cwd text : string) :
  files h !! biome_json_path h cwd = Some (RegularFile text) →
  json_parse h text = None →
  detectMode_of (Callback:=Callback) impl h cwd
  = ([EExistsSync (biome_json_path h cwd); EReadFileSync (biome_json_path h cwd)],
     Returned Legacy).
Proof.
  intros Hfile Hparse. rewrite detectMode_of_eq.
  unfold probe_trace, detected_mode. by rewrite Hfile, Hparse.
Qed.

Lemma detectMode_parse_failure_witness :
  json_parse broken_project "not json" = None
  ∧ detectMode_of (Callback:=unit) CommandTs broken_project "/work"
    = ([EExistsSync "/work/biome.json"; EReadFileSync "/work/biome.json"],
       Returned Legacy).
Proof.
  split; [reflexivity |].
  apply (detectMode_parse_failure (Callback:=unit) CommandTs broken_project
           "/work" "not json"); reflexivity.
Defined.

(** C3, as stated, fails: a [biome.json] that parses, whose [extends] list
    has an entry containing the marker, and for which [detectMode] still
    returns Legacy, because an earlier entry is a number and the TypeError
    it raises ends the loop. *)
Lemma detectMode_marker_after_number :
  files (linux_host (project_with number_then_marker) None)
    !! biome_json_path (linux_host (project_with number_then_marker) None) "/work"
  = Some (RegularFile number_then_marker)
  ∧ json_parse (linux_host (project_with number_then_marker) None) number_then_marker
    = Some (JObject {[ "extends" := JArray [JNumber 5; JString "tsds-config"] ]})
  ∧ Spec.has_marker_entry (JObject {[ "extends" := JArray [JNumber 5; JString "tsds-config"] ]})
  ∧ detectMode_of (Callback:=unit) CommandTs
      (linux_host (project_with number_then_marker) None) "/work"
    = ([EExistsSync "/work/biome.json"; EReadFileSync "/work/biome.json"],
       Returned Legacy).
Proof.
  split; [reflexivity |]. split; [reflexivity |]. split; [| reflexivity].
  exists "tsds-config". split.
  - change (JString "tsds-config" ∈ [JNumber 5; JString "tsds-config"]).
    apply elem_of_cons. right. apply elem_of_cons. by left.
  - by exists "", "".
Qed.

(** C3, amended: for a [biome.json] that parses and whose [extends] is
    neither an object nor an array with an entry that is not a string,
    [detectMode] returns Bundled if and only if the [extends] list (empty
    when the field is absent or no array) has an entry containing
    [tsds-config], and Legacy otherwise. *)
Theorem detectMode_extends_of_strings {Callback : Type} (impl : implementation)
    (h : host) (cwd text : string) (v : json) :
  files h !! biome_json_path h cwd = Some (RegularFile text) →
  json_parse h text = Some v →
  Spec.extends_of_strings v →
  ∃ mode,
    detectMode_of (Callback:=Callback) impl h cwd
    = ([EExistsSync (biome_json_path h cwd); EReadFileSync (biome_json_path h cwd)],
       Returned mode)
    ∧ (mode = Bundled ↔ Spec.has_marker_entry v)
    ∧ (mode = Legacy ↔ ¬ Spec.has_marker_entry v).
Proof.
  intros Hfile Hparse Hwf. rewrite detectMode_of_eq.
  unfold probe_trace, detected_mode. rewrite Hfile, Hparse.
  exists (mode_after (inspect h v)). split; [done |].
  pose proof (inspect_strings h v Hwf) as Hiff.
  split; [done |]. rewrite <- Hiff.
  destruct (mode_after (inspect h v)); split; congruence.
Qed.

Lemma detectMode_extends_of_strings_witness :
  ∃ mode,
    detectMode_of (Callback:=unit) CommandTs
      (linux_host (project_with shared_config_only) None) "/work"
    = ([EExistsSync "/work/biome.json"; EReadFileSync "/work/biome.json"], Returned mode)
    ∧ (mode = Bundled
       ↔ Spec.has_marker_entry
           (JObject {[ "extends" := JArray [JString "./tsds-config/biome.json"] ]}))
    ∧ (mode = Legacy
       ↔ ¬ Spec.has_marker_entry
             (JObject {[ "extends" := JArray [JString "./tsds-config/biome.json"] ]})).
Proof.
  apply (detectMode_extends_of_strings (Callback:=unit) CommandTs
           (linux_host (project_with shared_config_only) None) "/work"
           shared_config_only).
  - reflexivity.
  - reflexivity.
  - change (Forall Spec.is_string [JString "./tsds-config/biome.json"]).
    repeat constructor. by eexists.
Defined.

(** C10, as stated, fails: valid JSON whose [extends] is not an array of
    strings (its second entry is a number) and for which [detectMode]
    returns Bundled, not Legacy: the loop returns at the first entry and
    never reaches the number. *)
Lemma detectMode_number_after_marker :
  files (linux_host (project_with marker_then_number) None)
    !! biome_json_path (linux_host (project_with marker_then_number) None) "/work"
  = Some (RegularFile marker_then_number)
  ∧ json_parse (linux_host (project_with marker_then_number) None) marker_then_number
    = Some (JObject {[ "extends" := JArray [JString "tsds-config"; JNumber 5] ]})
  ∧ ¬ Forall Spec.is_string [JString "tsds-config"; JNumber 5]
  ∧ detectMode_of (Callback:=unit) CommandTs
      (linux_host (project_with marker_then_number) None) "/work"
    = ([EExistsSync "/work/biome.json"; EReadFileSync "/work/biome.json"],
       Returned Bundled).
Proof.
  split; [reflexivity |]. split; [reflexivity |]. split; [| reflexivity].
  intros Hall. apply Forall_cons_1 in Hall as [_ Hall].
  apply Forall_cons_1 in Hall as [[s Hs] _]. discriminate Hs.
Qed.

(** C10, amended: [detectMode] is total and never throws, whatever is at
    [biome.json]: it returns Bundled or Legacy after probing the file
    system.  The [try] block spans the whole inspection, so valid JSON whose
    [extends] is not an array of strings cannot escape as an exception: an
    entry without [indexOf] (a number, a boolean, null, an object) that is
    reached after string entries without the marker gives Legacy, and so
    does an [extends] that is neither an array nor an object; a string entry
    containing the marker that is reached after string entries without it
    gives Bundled, whatever comes after it. *)
Theorem detectMode_total_never_throws {Callback : Type} (impl : implementation)
    (h : host) (cwd : string) :
  (∃ reads mode,
     detectMode_of (Callback:=Callback) impl h cwd
     = (EExistsSync (biome_json_path h cwd) :: reads, Returned mode)
     ∧ (reads = [] ∨ reads = [EReadFileSync (biome_json_path h cwd)])
     ∧ (mode = Bundled ∨ mode = Legacy))
  ∧ (∀ text m pre x post,
       files h !! biome_json_path h cwd = Some (RegularFile text) →
       json_parse h text = Some (JObject m) →
       m !! "extends" = Some (JArray (pre ++ x :: post)) →
       Forall Spec.plain_entry pre →
       Spec.lacks_indexOf x →
       snd (detectMode_of (Callback:=Callback) impl h cwd) = Returned Legacy)
  ∧ (∀ text m x,
       files h !! biome_json_path h cwd = Some (RegularFile text) →
       json_parse h text = Some (JObject m) →
       m !! "extends" = Some x →
       Spec.is_primitive x →
       snd (detectMode_of (Callback:=Callback) impl h cwd) = Returned Legacy)
  ∧ (∀ text m pre s post,
       files h !! biome_json_path h cwd = Some (RegularFile text) →
       json_parse h text = Some (JObject m) →
       m !! "extends" = Some (JArray (pre ++ JString s :: post)) →
       Forall Spec.plain_entry pre →
       Spec.contains_substring "tsds-config" s →
       snd (detectMode_of (Callback:=Callback) impl h cwd) = Returned Bundled).
Proof.
  rewrite detectMode_of_eq. split; [| split; [| split]].
  - exists (match files h !! biome_json_path h cwd with
            | Some _ => [EReadFileSync (biome_json_path h cwd)]
            | None => []
            end), (detected_mode h cwd).
    split; [done |]. split.
    + destruct (files h !! _); auto.
    + destruct (detected_mode h cwd); auto.
  - intros text m pre x post Hfile Hparse Hext Hpre Hx. simpl.
    unfold detected_mode. rewrite Hfile, Hparse.
    by rewrite (inspect_array_throws h m pre post x).
  - intros text m x Hfile Hparse Hext Hx. simpl.
    unfold detected_mode. rewrite Hfile, Hparse.
    by rewrite (inspect_primitive h m x).
  - intros text m pre s post Hfile Hparse Hext Hpre Hs. simpl.
    unfold detected_mode. rewrite Hfile, Hparse.
    by rewrite (inspect_array_finds h m pre post s).
Qed.

Lemma detectMode_total_never_throws_witness :
  snd (detectMode_of (Callback:=unit) CommandTs
         (linux_host (project_with number_then_marker) None) "/work")
  = Returned Legacy.
Proof.
  apply (proj1 (proj2 (detectMode_total_never_throws (Callback:=unit) CommandTs
                         (linux_host (project_with number_then_marker) None) "/work"))
           number_then_marker
           {[ "extends" := JArray [JNumber 5; JString "tsds-config"] ]}
           [] (JNumber 5) [JString "tsds-config"]).
  - reflexivity.
  - reflexivity.
  - reflexivity.
  - constructor.
  - exact I.
Defined.

(** ** Dispatch *)

Section BranchFacts.
Variable h : host.
Variables (args : list string) (options : CommandOptions).

Lemma decide_unsupported :
  Dispatch.unsupported_platform h →
  Dispatch.decide_branch h args options = Dispatch.UnsupportedPlatform.
Proof.
  intros Hu. unfold Dispatch.decide_branch. by rewrite decide_True.
Qed.

Lemma decide_dry_run :
  ¬ Dispatch.unsupported_platform h → Dispatch.dry_run_flag h args →
  Dispatch.decide_branch h args options = Dispatch.DryRun.
Proof.
  intros Hu Hdry. unfold Dispatch.decide_branch.
  rewrite decide_False by done. by rewrite Hdry.
Qed.

Lemma decide_explicit_legacy :
  ¬ Dispatch.unsupported_platform h → ¬ Dispatch.dry_run_flag h args →
  Dispatch.legacy_flag h args →
  Dispatch.decide_branch h args options = Dispatch.ExplicitLegacy.
Proof.
  intros Hu Hdry Hlegacy. unfold Dispatch.decide_branch.
  rewrite decide_False by done. unfold Dispatch.dry_run_flag in Hdry.
  destruct (opts_dry_run _); [done |]. by rewrite Hlegacy.
Qed.

Lemma decide_detected :
  ¬ Dispatch.unsupported_platform h → ¬ Dispatch.dry_run_flag h args →
  ¬ Dispatch.legacy_flag h args →
  Dispatch.decide_branch h args options
  = match detected_mode h (Dispatch.caller_cwd h options) with
    | Legacy => Dispatch.DetectedLegacy
    | Bundled => Dispatch.BundledFormatter
    end.
Proof.
  intros Hu Hdry Hlegacy. unfold Dispatch.decide_branch.
  rewrite decide_False by done.
  unfold Dispatch.dry_run_flag, Dispatch.legacy_flag in *.
  destruct (opts_dry_run _); [done |]. by destruct (opts_legacy _).
Qed.
End BranchFacts.

(** C4: with the dry-run flag set, or on a Windows-family platform whose
    architecture is neither x64 nor arm64, dispatch never spawns and calls
    the completion callback at once.  The platform guard comes first (no
    dry-run message is printed there), the dry-run flag second (before the
    legacy flag and before the configuration is looked at). *)
Theorem dispatch_noop_branches {Callback : Type} (impl : implementation) (h : host)
    (args : list string) (options : CommandOptions) (cb : Callback) :
  (Dispatch.unsupported_platform h →
     dispatch_of impl h args options cb = ([ECallback cb], Returned tt))
  ∧ (¬ Dispatch.unsupported_platform h → Dispatch.dry_run_flag h args →
     dispatch_of impl h args options cb
     = ([ELog "Dry-run: would format code with biome"; ECallback cb], Returned tt))
  ∧ (Dispatch.unsupported_platform h ∨ Dispatch.dry_run_flag h args →
     Dispatch.spawn_count (fst (dispatch_of impl h args options cb)) = 0%nat
     ∧ Dispatch.callback_count (fst (dispatch_of impl h args options cb)) = 1%nat
     ∧ last (fst (dispatch_of impl h args options cb)) = Some (ECallback cb)
     ∧ Forall (λ e, Dispatch.is_fs_probe e = false)
         (fst (dispatch_of impl h args options cb))).
Proof.
  rewrite dispatch_of_eq.
  assert (Dispatch.unsupported_platform h →
          Dispatch.decide_branch h args options = Dispatch.UnsupportedPlatform) as Hfirst
    by apply decide_unsupported.
  assert (¬ Dispatch.unsupported_platform h → Dispatch.dry_run_flag h args →
          Dispatch.decide_branch h args options = Dispatch.DryRun) as Hsecond
    by apply decide_dry_run.
  split; [| split].
  - intros Hu. by rewrite Hfirst.
  - intros Hu Hdry. by rewrite Hsecond.
  - intros Hnoop. simpl.
    destruct (decide (Dispatch.unsupported_platform h)) as [Hu|Hu].
    + rewrite Hfirst by done. repeat split; repeat constructor.
    + destruct Hnoop as [?|Hdry]; [done |].
      rewrite Hsecond by done. repeat split; repeat constructor.
Qed.

Lemma dispatch_noop_branches_witness :
  dispatch_of (Callback:=unit) CommandTs (windows_ia32_host ∅) ["--dry-run"; "--legacy"]
    no_options tt
  = ([ECallback tt], Returned tt).
Proof.
  apply (proj1 (dispatch_noop_branches (Callback:=unit) CommandTs (windows_ia32_host ∅)
                  ["--dry-run"; "--legacy"] no_options tt)).
  split.
  - left. reflexivity.
  - intros [Harch|Harch]; discriminate Harch.
Defined.

Section BundledFacts.
Context {Callback : Type}.
Variables (impl : implementation) (h : host).
Variables (args : list string) (options : CommandOptions) (cb : Callback).

Hypothesis supported : ¬ Dispatch.unsupported_platform h.
Hypothesis no_dry_run : ¬ Dispatch.dry_run_flag h args.
Hypothesis no_legacy : ¬ Dispatch.legacy_flag h args.
Hypothesis bundled :
  snd (detectMode_of (Callback:=Callback) impl h (Dispatch.caller_cwd h options))
  = Returned Bundled.

(** What dispatch does in Bundled mode: it resolves the formatter and
    spawns it, or the resolver's exception leaves the call. *)
Lemma dispatch_bundled :
  dispatch_of impl h args options cb
  = match resolveBin h "@biomejs/biome" "biome" with
    | Some biomeBin =>
        (fst (detectMode_of impl h (Dispatch.caller_cwd h options))
         ++ [EExistsSync (biome_json_path h (Dispatch.caller_cwd h options));
             ESpawn biomeBin
               (Dispatch.base_arguments
                ++ Dispatch.config_path_flag h (Dispatch.caller_cwd h options)
                ++ Dispatch.forwarded args)
               (spread_with_cwd options (Dispatch.caller_cwd h options)) cb],
         Returned tt)
    | None =>
        (fst (detectMode_of impl h (Dispatch.caller_cwd h options)),
         Thrown ModuleNotFound)
    end.
Proof.
  rewrite dispatch_of_eq, decide_detected by done.
  rewrite detectMode_of_eq in *. simpl in bundled.
  injection bundled as ->. simpl.
  destruct (resolveBin h _ _); [done | by rewrite app_nil_r].
Qed.
End BundledFacts.

Lemma control_flag_cases (flag : string) :
  flag ∈ Dispatch.control_flags ↔ flag = "--legacy" ∨ flag = "--dry-run" ∨ flag = "-d".
Proof.
  unfold Dispatch.control_flags. rewrite !elem_of_cons, elem_of_nil. tauto.
Qed.

(** C5: in Bundled mode the formatter is spawned with the fixed tokens,
    the optional configuration flag, and then the caller's arguments with
    [--legacy], [--dry-run] and [-d] filtered out and everything else kept
    in its order; none of the three tokens is in the forwarded part, nor
    anywhere in the list (the resolved configuration path not being one of
    them).  Where the formatter binary does not resolve there is no spawn:
    the resolver's exception leaves the call. *)
Theorem bundled_arguments_filtered {Callback : Type} (impl : implementation) (h : host)
    (args : list string) (options : CommandOptions) (cb : Callback) :
  ¬ Dispatch.unsupported_platform h →
  ¬ Dispatch.dry_run_flag h args →
  ¬ Dispatch.legacy_flag h args →
  snd (detectMode_of (Callback:=Callback) impl h (Dispatch.caller_cwd h options))
  = Returned Bundled →
  dispatch_of impl h args options cb
  = match resolveBin h "@biomejs/biome" "biome" with
    | Some biomeBin =>
        (fst (detectMode_of impl h (Dispatch.caller_cwd h options))
         ++ [EExistsSync (biome_json_path h (Dispatch.caller_cwd h options));
             ESpawn biomeBin
               ((Dispatch.base_arguments
                 ++ Dispatch.config_path_flag h (Dispatch.caller_cwd h options))
                ++ filter (λ a, a ∉ ["--legacy"; "--dry-run"; "-d"]) args)
               (spread_with_cwd options (Dispatch.caller_cwd h options)) cb],
         Returned tt)
    | None =>
        (fst (detectMode_of impl h (Dispatch.caller_cwd h options)),
         Thrown ModuleNotFound)
    end
  ∧ (∀ flag, flag ∈ ["--legacy"; "--dry-run"; "-d"] →
       flag ∉ filter (λ a, a ∉ ["--legacy"; "--dry-run"; "-d"]) args)
  ∧ filter (λ a, a ∉ ["--legacy"; "--dry-run"; "-d"]) args `sublist_of` args
  ∧ (∀ a, a ∈ args → a ∉ ["--legacy"; "--dry-run"; "-d"] →
       a ∈ filter (λ a, a ∉ ["--legacy"; "--dry-run"; "-d"]) args)
  ∧ ((∀ p, module_path h "tsds-config/biome.json" = Some p →
        p ∉ ["--legacy"; "--dry-run"; "-d"]) →
     ∀ flag, flag ∈ ["--legacy"; "--dry-run"; "-d"] →
       flag ∉ (Dispatch.base_arguments
               ++ Dispatch.config_path_flag h (Dispatch.caller_cwd h options))
              ++ filter (λ a, a ∉ ["--legacy"; "--dry-run"; "-d"]) args).
Proof.
  intros Hu Hdry Hlegacy Hmode.
  assert (∀ flag, flag ∈ ["--legacy"; "--dry-run"; "-d"] →
            flag ∉ filter (λ a, a ∉ ["--legacy"; "--dry-run"; "-d"]) args) as Hnone.
  { intros flag Hflag [Hnot _]%list_elem_of_filter. done. }
  split; [| split; [done | split; [apply sublist_filter | split]]].
  - rewrite (dispatch_bundled impl h args options cb) by done.
    by rewrite <- app_assoc.
  - intros a Ha Hnot. apply list_elem_of_filter. done.
  - intros Hpath flag Hflag.
    rewrite !elem_of_app. intros [[Hbase|Hconfig]|Hfwd].
    + apply control_flag_cases in Hflag. unfold Dispatch.base_arguments in Hbase.
      rewrite !elem_of_cons, elem_of_nil in Hbase.
      destruct Hflag as [-> | [-> | ->]]; destruct Hbase as [?|[?|[?|?]]]; done.
    + unfold Dispatch.config_path_flag in Hconfig.
      destruct (files h !! _); [by apply elem_of_nil in Hconfig |].
      destruct (module_path h _) as [p|] eqn:Hp; [| by apply elem_of_nil in Hconfig].
      case_decide; [by apply elem_of_nil in Hconfig |].
      rewrite !elem_of_cons, elem_of_nil in Hconfig.
      destruct Hconfig as [-> | [-> | ?]]; [| by apply (Hpath p) | done].
      apply control_flag_cases in Hflag. by destruct Hflag as [?|[?|?]].
    + by apply (Hnone flag).
Qed.

Lemma bundled_arguments_filtered_witness :
  dispatch_of (Callback:=unit) CommandTs fresh_project ["--fix"; "--"; "-d"; "src"]
    no_options tt
  = ([EExistsSync "/work/biome.json"; EExistsSync "/work/biome.json";
      ESpawn "/pkg/node_modules/@biomejs/biome/bin/biome"
        ["check"; "--write"; "--unsafe";
         "--config-path"; "/pkg/node_modules/tsds-config/biome.json";
         "--fix"; "--"; "src"]
        (spread_with_cwd no_options "/work") tt],
     Returned tt).
Proof.
  apply (proj1 (bundled_arguments_filtered (Callback:=unit) CommandTs fresh_project
                  ["--fix"; "--"; "-d"; "src"] no_options tt
                  ltac:(intros [[?|[?|?]] _]; discriminate)
                  ltac:(vm_compute; discriminate)
                  ltac:(vm_compute; discriminate)
                  ltac:(reflexivity))).
Defined.

(** C6: in Bundled mode the spawned argument list begins with [check],
    [--write], [--unsafe]; [--config-path] and the resolved default
    configuration follow them exactly when no local [biome.json] exists and
    the resolution succeeds.  When it fails the flag is left out and
    dispatch goes on to spawn and ends normally.  (Where the formatter
    binary itself does not resolve there is no spawn: the resolver's
    exception leaves the call.) *)
Theorem bundled_config_path {Callback : Type} (impl : implementation) (h : host)
    (args : list string) (options : CommandOptions) (cb : Callback) :
  ¬ Dispatch.unsupported_platform h →
  ¬ Dispatch.dry_run_flag h args →
  ¬ Dispatch.legacy_flag h args →
  snd (detectMode_of (Callback:=Callback) impl h (Dispatch.caller_cwd h options))
  = Returned Bundled →
  module_path h "tsds-config/biome.json" ≠ Some "" →
  ∃ config,
    dispatch_of impl h args options cb
    = match resolveBin h "@biomejs/biome" "biome" with
      | Some biomeBin =>
          (fst (detectMode_of impl h (Dispatch.caller_cwd h options))
           ++ [EExistsSync (biome_json_path h (Dispatch.caller_cwd h options));
               ESpawn biomeBin
                 (["check"; "--write"; "--unsafe"] ++ config ++ Dispatch.forwarded args)
                 (spread_with_cwd options (Dispatch.caller_cwd h options)) cb],
           Returned tt)
      | None =>
          (fst (detectMode_of impl h (Dispatch.caller_cwd h options)),
           Thrown ModuleNotFound)
      end
    ∧ (∀ p, config = ["--config-path"; p]
            ↔ files h !! biome_json_path h (Dispatch.caller_cwd h options) = None
              ∧ module_path h "tsds-config/biome.json" = Some p)
    ∧ (config = []
       ↔ is_Some (files h !! biome_json_path h (Dispatch.caller_cwd h options))
         ∨ module_path h "tsds-config/biome.json" = None).
Proof.
  intros Hu Hdry Hlegacy Hmode Hpath.
  exists (Dispatch.config_path_flag h (Dispatch.caller_cwd h options)).
  split; [by apply dispatch_bundled |].
  unfold Dispatch.config_path_flag.
  destruct (files h !! _) as [e|].
  - split.
    + intros p. split; [done | by intros [? _]].
    + split; [eauto | done].
  - destruct (module_path h _) as [p|].
    + rewrite decide_False by congruence. split.
      * intros p'. split; [by intros [= ->] | by intros [_ [= ->]]].
      * split; [done | intros [[? ?]|?]; done].
    + split.
      * intros p. split; [done | by intros [_ ?]].
      * split; [auto | done].
Qed.

Lemma bundled_config_path_witness :
  ∃ config,
    dispatch_of (Callback:=unit) CommandTs fresh_project ["--fix"] no_options tt
    = ([EExistsSync "/work/biome.json"; EExistsSync "/work/biome.json";
        ESpawn "/pkg/node_modules/@biomejs/biome/bin/biome"
          (["check"; "--write"; "--unsafe"] ++ config ++ ["--fix"])
          (spread_with_cwd no_options "/work") tt],
       Returned tt)
    ∧ (∀ p, config = ["--config-path"; p]
            ↔ files fresh_project !! "/work/biome.json" = None
              ∧ module_path fresh_project "tsds-config/biome.json" = Some p)
    ∧ (config = []
       ↔ is_Some (files fresh_project !! "/work/biome.json")
         ∨ module_path fresh_project "tsds-config/biome.json" = None).
Proof.
  apply (bundled_config_path (Callback:=unit) CommandTs fresh_project ["--fix"]
           no_options tt).
  - intros [[?|[?|?]] _]; discriminate.
  - vm_compute; discriminate.
  - vm_compute; discriminate.
  - reflexivity.
  - discriminate.
Defined.

(** C7: the legacy action, taken on the [--legacy] flag or when
    [detectMode] returns Legacy, spawns [npm run format] with the caller's
    options and working directory and hands it the caller's callback; the
    caller's arguments do not appear in it.  With the flag set the file
    system is not touched and its content makes no difference. *)
Theorem legacy_action_spawns_npm {Callback : Type} (impl : implementation) (h : host)
    (args : list string) (options : CommandOptions) (cb : Callback) :
  ¬ Dispatch.unsupported_platform h →
  ¬ Dispatch.dry_run_flag h args →
  (Dispatch.legacy_flag h args →
     dispatch_of impl h args options cb
     = ([ELog "[tsds-biome] Using legacy mode (npm run format)";
         ESpawn "npm" ["run"; "format"]
           (spread_with_cwd options (Dispatch.caller_cwd h options)) cb],
        Returned tt)
     ∧ ∀ fs, dispatch_of impl (with_files h fs) args options cb
             = dispatch_of impl h args options cb)
  ∧ (¬ Dispatch.legacy_flag h args →
     snd (detectMode_of (Callback:=Callback) impl h (Dispatch.caller_cwd h options))
     = Returned Legacy →
     dispatch_of impl h args options cb
     = (fst (detectMode_of impl h (Dispatch.caller_cwd h options))
        ++ [ELog "[tsds-biome] Using legacy mode (npm run format)";
            ELog "[tsds-biome] To migrate: extend tsds-config/biome.json in your biome.json";
            ESpawn "npm" ["run"; "format"]
              (spread_with_cwd options (Dispatch.caller_cwd h options)) cb],
        Returned tt))
  ∧ options_cwd (spread_with_cwd options (Dispatch.caller_cwd h options))
    = Some (Dispatch.caller_cwd h options)
  ∧ options_rest (spread_with_cwd options (Dispatch.caller_cwd h options))
    = options_rest options.
Proof.
  intros Hu Hdry. split; [| split; [| done]].
  - intros Hlegacy.
    assert (∀ h', Dispatch.windows_family h' = Dispatch.windows_family h →
                  Dispatch.supported_arch h' = Dispatch.supported_arch h →
                  getopts h' = getopts h →
                  Dispatch.caller_cwd h' options = Dispatch.caller_cwd h options →
                  dispatch_of impl h' args options cb
                  = ([ELog "[tsds-biome] Using legacy mode (npm run format)";
                      ESpawn "npm" ["run"; "format"]
                        (spread_with_cwd options (Dispatch.caller_cwd h options)) cb],
                     Returned tt)) as Hsame.
    { intros h' Hw Ha Hopts Hcwd.
      rewrite dispatch_of_eq, decide_explicit_legacy.
      - simpl. by rewrite Hcwd.
      - unfold Dispatch.unsupported_platform. by rewrite Hw, Ha.
      - unfold Dispatch.dry_run_flag. by rewrite Hopts.
      - unfold Dispatch.legacy_flag. by rewrite Hopts. }
    split; [by apply Hsame |].
    intros fs. rewrite (Hsame h) by done. by apply Hsame.
  - intros Hlegacy Hmode.
    rewrite dispatch_of_eq, decide_detected by done.
    rewrite detectMode_of_eq in *. simpl in Hmode.
    injection Hmode as ->. done.
Qed.

Lemma legacy_action_spawns_npm_witness :
  dispatch_of (Callback:=unit) CommandTs broken_project ["--legacy"; "--fix"] no_options tt
  = ([ELog "[tsds-biome] Using legacy mode (npm run format)";
      ESpawn "npm" ["run"; "format"] (spread_with_cwd no_options "/work") tt],
     Returned tt).
Proof.
  apply (proj1 (legacy_action_spawns_npm (Callback:=unit) CommandTs broken_project
                  ["--legacy"; "--fix"] no_options tt
                  ltac:(intros [[?|[?|?]] _]; discriminate)
                  ltac:(vm_compute; discriminate))).
  reflexivity.
Defined.

(** C8, as stated, fails: on the Bundled branch the formatter binary is
    resolved outside any [try]; where it cannot be resolved the resolver's
    exception leaves dispatch after the probe of [detectMode], with nothing
    spawned and the callback never called. *)
Lemma dispatch_formatter_missing :
  Dispatch.decide_branch (without_formatter fresh_project) ["--fix"] no_options
  = Dispatch.BundledFormatter
  ∧ dispatch_of (Callback:=unit) CommandTs (without_formatter fresh_project) ["--fix"]
      no_options tt
    = ([EExistsSync "/work/biome.json"], Thrown ModuleNotFound)
  ∧ (Dispatch.spawn_count
       (fst (dispatch_of (Callback:=unit) CommandTs (without_formatter fresh_project)
               ["--fix"] no_options tt))
     + Dispatch.callback_count
         (fst (dispatch_of (Callback:=unit) CommandTs (without_formatter fresh_project)
                 ["--fix"] no_options tt))
     = 0)%nat.
Proof. split; [reflexivity | split; reflexivity]. Qed.

(** C8, amended: for all arguments and options with which dispatch does not
    come to the Bundled branch with a formatter binary that fails to
    resolve, dispatch follows exactly one of its five branches, ends
    normally (raises nothing), and completes exactly once: either it calls
    the callback itself or it hands it to one spawn; the callback is the
    caller's. *)
Theorem dispatch_completes_once {Callback : Type} (impl : implementation) (h : host)
    (args : list string) (options : CommandOptions) (cb : Callback) :
  Dispatch.formatter_resolves h args options →
  dispatch_of impl h args options cb
  = (Dispatch.branch_trace h args options cb (Dispatch.decide_branch h args options),
     Returned tt)
  ∧ (∀ b, fst (dispatch_of impl h args options cb)
          = Dispatch.branch_trace h args options cb b
          ↔ b = Dispatch.decide_branch h args options)
  ∧ (Dispatch.spawn_count (fst (dispatch_of impl h args options cb))
     + Dispatch.callback_count (fst (dispatch_of impl h args options cb)) = 1)%nat
  ∧ (∀ cb', ECallback cb' ∈ fst (dispatch_of impl h args options cb) ↔
            cb' = cb
            ∧ Dispatch.callback_count (fst (dispatch_of impl h args options cb)) = 1%nat)
  ∧ (∀ command spawnArgs spawnOptions cb',
       ESpawn command spawnArgs spawnOptions cb'
         ∈ fst (dispatch_of impl h args options cb) → cb' = cb).
Proof.
  intros Hresolves. rewrite dispatch_of_eq. simpl.
  split; [| split; [| split; [| split]]].
  - f_equal. by apply branch_outcome_resolves.
  - intros b. split; [intros Heq; symmetry; by eapply branch_trace_inj | by intros ->].
  - by apply branch_completes_resolves.
  - intros cb'. split.
    + intros Hin. split.
      { exact (proj1 (branch_trace_callback h args options cb cb' _) Hin). }
      revert Hin. unfold Dispatch.branch_trace, probe_trace, Dispatch.callback_count.
      destruct (files h !! _); destruct (resolveBin h _ _);
        destruct (Dispatch.decide_branch h args options);
        simpl; intros Hin; try reflexivity;
        repeat (apply elem_of_cons in Hin as [Hin|Hin]; [discriminate Hin |]);
        by apply elem_of_nil in Hin.
    + intros [-> Hcount]. revert Hcount.
      unfold Dispatch.branch_trace, probe_trace, Dispatch.callback_count.
      destruct (files h !! _); destruct (resolveBin h _ _);
        destruct (Dispatch.decide_branch h args options);
        simpl; intros Hcount; try discriminate Hcount;
        rewrite !elem_of_cons; auto.
  - intros command spawnArgs spawnOptions cb'.
    exact (proj2 (branch_trace_callback h args options cb cb' _)
             command spawnArgs spawnOptions).
Qed.

Lemma dispatch_completes_once_witness :
  dispatch_of (Callback:=unit) CommandTs fresh_project ["--fix"] no_options tt
  = ([EExistsSync "/work/biome.json"; EExistsSync "/work/biome.json";
      ESpawn "/pkg/node_modules/@biomejs/biome/bin/biome"
        ["check"; "--write"; "--unsafe";
         "--config-path"; "/pkg/node_modules/tsds-config/biome.json"; "--fix"]
        (spread_with_cwd no_options "/work") tt],
     Returned tt).
Proof.
  apply (proj1 (dispatch_completes_once (Callback:=unit) CommandTs fresh_project
                  ["--fix"] no_options tt
                  ltac:(intros _; eexists; reflexivity))).
Defined.


(** * Further properties of the code *)

(** ** detectMode beyond the configuration contract *)

(** X1: a [biome.json] that exists but cannot be read (a directory, a file
    without read permission) gives Legacy: the error of [readFileSync] is
    caught like a parse error. *)
Theorem detectMode_unreadable_config {Callback : Type} (impl : implementation)
    (h : host) (cwd : string) :
  files h !! biome_json_path h cwd = Some Unreadable →
  detectMode_of (Callback:=Callback) impl h cwd
  = ([EExistsSync (biome_json_path h cwd); EReadFileSync (biome_json_path h cwd)],
     Returned Legacy).
Proof.
  intros Hfile. rewrite detectMode_of_eq.
  unfold probe_trace, detected_mode. by rewrite Hfile.
Qed.

Lemma detectMode_unreadable_config_witness :
  detectMode_of (Callback:=unit) WorkerVariant directory_project "/work"
  = ([EExistsSync "/work/biome.json"; EReadFileSync "/work/biome.json"],
     Returned Legacy).
Proof.
  apply (detectMode_unreadable_config (Callback:=unit) WorkerVariant
           directory_project "/work").
  reflexivity.
Defined.

Section ArrayEntries.
Variable h : host.

Lemma mode_after_bundled (o : outcome (option Mode)) :
  mode_after o = Bundled ↔ o = Returned (Some Bundled).
Proof. destruct o as [[[|]|]| |]; simpl; split; congruence. Qed.

Lemma matches_has_indexOf (x : json) :
  Entries.matches_marker x → Entries.has_indexOf x.
Proof. by destruct x. Qed.

(** The three ways the test on one entry can go. *)
Lemma call_indexOf_cases (x : json) :
  (Entries.matches_marker x
   ∧ ∃ pos, call_indexOf (Some x) "tsds-config" = Returned pos ∧ 0 ≤ pos)
  ∨ (Entries.stepped_over x
     ∧ ∃ pos, call_indexOf (Some x) "tsds-config" = Returned pos ∧ pos < 0)
  ∨ (¬ Entries.has_indexOf x
     ∧ call_indexOf (Some x) "tsds-config" = Thrown TypeError).
Proof.
  destruct x as [| | |s|l|]; simpl; try (right; right; split; [tauto | done]).
  - destruct (Z.leb_spec 0 (String_indexOf s "tsds-config")) as [Hpos|Hneg].
    + left. split; [by apply String_indexOf_found | eauto].
    + right. left. split; [| eauto]. split; [done |].
      intros Hm. simpl in Hm. apply String_indexOf_found in Hm. lia.
  - destruct (Z.leb_spec 0 (Array_indexOf l "tsds-config")) as [Hpos|Hneg].
    + left. split; [by apply Array_indexOf_found | eauto].
    + right. left. split; [| eauto]. split; [done |].
      intros Hm. simpl in Hm. apply Array_indexOf_found in Hm. lia.
Qed.

(** The loop over an array returns Bundled exactly when it reaches a
    matching entry having stepped over all the entries before it. *)
Lemma for_extends_array_spec (l : list json) (fuel i : nat) :
  (i ≤ length l)%nat → (length l < i + fuel)%nat →
  Command.for_extends h (JArray l) fuel i = Returned (Some Bundled)
  ↔ ∃ k x, (i ≤ k)%nat ∧ l !! k = Some x ∧ Entries.matches_marker x
           ∧ ∀ j y, (i ≤ j < k)%nat → l !! j = Some y → Entries.stepped_over y.
Proof.
  revert i. induction fuel as [|fuel IH]; intros i Hi Hfuel; [lia |].
  destruct (l !! i) as [x|] eqn:Hx.
  - rewrite (for_extends_array_step _ _ _ _ _ Hx).
    pose proof (lookup_lt_Some _ _ _ Hx).
    destruct (call_indexOf_cases x)
      as [(Hm & pos & -> & Hpos)|[(Hs & pos & -> & Hneg)|(Hno & ->)]]; simpl.
    + rewrite (proj2 (Z.leb_le 0 pos)) by done. split; [intros _ | done].
      exists i, x. split; [lia |]. split; [done |]. split; [done |]. intros j y Hj. lia.
    + rewrite (proj2 (Z.leb_gt 0 pos)) by done. rewrite IH by lia. split.
      * intros (k & x' & Hk & Hx' & Hm & Hbefore).
        exists k, x'. split; [lia |]. split; [done |]. split; [done |].
        intros j y Hj Hy. destruct (decide (j = i)) as [->|].
        -- by replace y with x by congruence.
        -- apply (Hbefore j); [lia | done].
      * intros (k & x' & Hk & Hx' & Hm & Hbefore).
        destruct (decide (k = i)) as [->|].
        { replace x' with x in Hm by congruence. by destruct Hs. }
        exists k, x'. split; [lia |]. split; [done |]. split; [done |].
        intros j y Hj. apply Hbefore. lia.
    + split; [done |]. intros (k & x' & Hk & Hx' & Hm & Hbefore).
      destruct (decide (k = i)) as [->|].
      * replace x' with x in Hm by congruence. by apply matches_has_indexOf in Hm.
      * destruct (Hbefore i x) as [? _]; [lia | done | done].
  - apply lookup_ge_None in Hx. rewrite for_extends_array_end by done.
    split; [done |]. intros (k & x & Hk & Hx' & _).
    apply lookup_lt_Some in Hx'. lia.
Qed.

Lemma first_match_split (l : list json) :
  (∃ k x, (0 ≤ k)%nat ∧ l !! k = Some x ∧ Entries.matches_marker x
          ∧ ∀ j y, (0 ≤ j < k)%nat → l !! j = Some y → Entries.stepped_over y)
  ↔ ∃ pre x post, l = pre ++ x :: post
                  ∧ Forall Entries.stepped_over pre ∧ Entries.matches_marker x.
Proof.
  split.
  - intros (k & x & _ & Hx & Hm & Hbefore).
    exists (take k l), x, (drop (S k) l). split; [by rewrite take_drop_middle |].
    split; [| done]. apply Forall_lookup. intros j y Hy.
    apply lookup_take_Some in Hy as [Hy Hj]. apply (Hbefore j); [lia | done].
  - intros (pre & x & post & -> & Hpre & Hm).
    exists (length pre), x. split; [lia |]. split; [by rewrite list_lookup_middle |].
    split; [done |]. intros j y Hj Hy.
    rewrite lookup_app_l in Hy by lia.
    by apply (proj1 (Forall_lookup _ _) Hpre j).
Qed.
End ArrayEntries.

(** X2: when [extends] is an array, whatever its entries, [detectMode]
    returns Bundled exactly when some entry matches (a string containing
    the marker, or an array with the marker as an element) and every entry
    before it is a string or an array that does not match; in every other
    case it returns Legacy. *)
Theorem detectMode_array_extends {Callback : Type} (impl : implementation)
    (h : host) (cwd text : string) (m : gmap string json) (l : list json) :
  files h !! biome_json_path h cwd = Some (RegularFile text) →
  json_parse h text = Some (JObject m) →
  m !! "extends" = Some (JArray l) →
  ∃ mode,
    detectMode_of (Callback:=Callback) impl h cwd
    = ([EExistsSync (biome_json_path h cwd); EReadFileSync (biome_json_path h cwd)],
       Returned mode)
    ∧ (mode = Bundled
       ↔ ∃ pre x post, l = pre ++ x :: post
                       ∧ Forall Entries.stepped_over pre ∧ Entries.matches_marker x)
    ∧ (mode = Bundled ∨ mode = Legacy).
Proof.
  intros Hfile Hparse Hext. rewrite detectMode_of_eq.
  unfold probe_trace, detected_mode. rewrite Hfile, Hparse.
  exists (mode_after (inspect h (JObject m))). split; [done |]. split.
  - rewrite mode_after_bundled, <- first_match_split.
    unfold inspect. simpl. rewrite Hext. simpl.
    apply for_extends_array_spec; lia.
  - destruct (mode_after _); auto.
Qed.

Lemma detectMode_array_extends_witness :
  ∃ mode,
    detectMode_of (Callback:=unit) CommandTs nested_marker_project "/work"
    = ([EExistsSync "/work/biome.json"; EReadFileSync "/work/biome.json"], Returned mode)
    ∧ (mode = Bundled
       ↔ ∃ pre x post,
           [JString "./base.json"; JArray [JString "tsds-config"]] = pre ++ x :: post
           ∧ Forall Entries.stepped_over pre ∧ Entries.matches_marker x)
    ∧ (mode = Bundled ∨ mode = Legacy).
Proof.
  apply (detectMode_array_extends (Callback:=unit) CommandTs nested_marker_project
           "/work" nested_marker_text
           {[ "extends" := JArray [JString "./base.json"; JArray [JString "tsds-config"]] ]}).
  - reflexivity.
  - reflexivity.
  - reflexivity.
Defined.

(** X3: [detectMode] looks at nothing but [biome.json] in the working
    directory: both accesses are made at that path, and the rest of the
    file system makes no difference to its effects or its result. *)
Theorem detectMode_reads_only_config {Callback : Type} (impl : implementation)
    (h : host) (fs : gmap string fs_entry) (cwd : string) :
  fs !! biome_json_path h cwd = files h !! biome_json_path h cwd →
  detectMode_of (Callback:=Callback) impl (with_files h fs) cwd
  = detectMode_of impl h cwd
  ∧ Forall (λ e, Access.accessed_path e = Some (biome_json_path h cwd))
      (fst (detectMode_of (Callback:=Callback) impl h cwd)).
Proof.
  intros Hsame. rewrite !detectMode_of_eq. split.
  - unfold probe_trace, detected_mode.
    change (biome_json_path (with_files h fs) cwd) with (biome_json_path h cwd).
    change (files (with_files h fs)) with fs. rewrite Hsame.
    by destruct (files h !! _) as [[text|]|].
  - simpl. unfold probe_trace. destruct (files h !! _); repeat constructor.
Qed.

Lemma detectMode_reads_only_config_witness :
  detectMode_of (Callback:=unit) CommandTs
    (with_files broken_project broken_project_files) "/work"
  = detectMode_of CommandTs broken_project "/work".
Proof.
  apply (proj1 (detectMode_reads_only_config (Callback:=unit) CommandTs broken_project
                  broken_project_files "/work" ltac:(vm_compute; reflexivity))).
Defined.

Section BundledNeeds.
Variable h : host.

Lemma inspect_not_object (v : json) :
  (∀ m, v ≠ JObject m) → mode_after (inspect h v) = Legacy.
Proof.
  intros Hv. unfold inspect.
  destruct v as [| | | | |m]; simpl; try done.
  by destruct (Hv m).
Qed.

Lemma inspect_no_extends (m : gmap string json) :
  m !! "extends" = None → mode_after (inspect h (JObject m)) = Legacy.
Proof.
  intros Hext. unfold inspect. simpl. by rewrite Hext.
Qed.

(** An object is walked only if it has a [length] and an entry at 0. *)
Lemma inspect_object_extends (m m' : gmap string json) :
  m !! "extends" = Some (JObject m') →
  mode_after (inspect h (JObject m)) = Bundled →
  is_Some (m' !! "length") ∧ is_Some (m' !! "0").
Proof.
  intros Hext. unfold inspect. simpl. rewrite Hext. simpl.
  unfold Command.for_extends. simpl.
  destruct (m' !! "length") as [len|]; simpl; [| done].
  destruct (js_lt h 0 len); simpl; [| done].
  change (pretty 0%nat) with "0".
  destruct (m' !! "0") as [x|]; simpl; [eauto | done].
Qed.
End BundledNeeds.

(** X4: [detectMode] returns Bundled only if there is no [biome.json], or
    it parses to an object whose [extends] is an array, or an object with a
    [length] and an entry at 0: never for a file that cannot be read or
    parsed, for JSON that is not an object, or for an [extends] that is
    missing, null, a boolean, a number or a string. *)
Theorem detectMode_bundled_only_if {Callback : Type} (impl : implementation)
    (h : host) (cwd : string) :
  snd (detectMode_of (Callback:=Callback) impl h cwd) = Returned Bundled →
  files h !! biome_json_path h cwd = None
  ∨ ∃ text m x,
      files h !! biome_json_path h cwd = Some (RegularFile text)
      ∧ json_parse h text = Some (JObject m)
      ∧ m !! "extends" = Some x
      ∧ ((∃ l, x = JArray l)
         ∨ ∃ m', x = JObject m' ∧ is_Some (m' !! "length") ∧ is_Some (m' !! "0")).
Proof.
  rewrite detectMode_of_eq. simpl. unfold detected_mode.
  destruct (files h !! _) as [[text|]|] eqn:Hfile; [| done | auto].
  destruct (json_parse h text) as [v|] eqn:Hparse; [| done].
  intros [= Hmode]. right.
  assert ((∃ m, v = JObject m) ∨ ∀ m, v ≠ JObject m) as [[m ->]|Hno]
    by (destruct v; eauto; right; intros; discriminate).
  - destruct (m !! "extends") as [x|] eqn:Hext.
    + exists text, m, x. split; [done |]. split; [done |]. split; [done |].
      destruct x as [| | | |l|m'].
      * by rewrite (inspect_primitive h m JNull) in Hmode.
      * by rewrite (inspect_primitive h m (JBool b)) in Hmode.
      * by rewrite (inspect_primitive h m (JNumber x)) in Hmode.
      * by rewrite (inspect_primitive h m (JString s)) in Hmode.
      * left. eauto.
      * right. exists m'. split; [done |]. by apply (inspect_object_extends h m m').
    + by rewrite inspect_no_extends in Hmode.
  - by rewrite inspect_not_object in Hmode.
Qed.

Lemma detectMode_bundled_only_if_witness :
  files fresh_project !! biome_json_path fresh_project "/work" = None
  ∨ ∃ text m x,
      files fresh_project !! biome_json_path fresh_project "/work"
      = Some (RegularFile text)
      ∧ json_parse fresh_project text = Some (JObject m)
      ∧ m !! "extends" = Some x
      ∧ ((∃ l, x = JArray l)
         ∨ ∃ m', x = JObject m' ∧ is_Some (m' !! "length") ∧ is_Some (m' !! "0")).
Proof.
  apply (detectMode_bundled_only_if (Callback:=unit) CommandTs fresh_project "/work").
  reflexivity.
Defined.

(** ** The argument copying loop *)

(** X5: the copying loop leaves what is already in [spawnArgs] in place and
    only appends; it appends the caller's arguments unchanged exactly when
    none of them is a control flag, and never more than it was given. *)
Theorem push_args_verbatim (spawnArgs args : list string) :
  spawnArgs `prefix_of` Command.push_args spawnArgs args
  ∧ (Command.push_args spawnArgs args = spawnArgs ++ args
     ↔ Forall (λ a, a ∉ ["--legacy"; "--dry-run"; "-d"]) args)
  ∧ (length (Command.push_args spawnArgs args) ≤ length spawnArgs + length args)%nat
  ∧ Part000.push_args spawnArgs args = Command.push_args spawnArgs args.
Proof.
  change (Part000.push_args spawnArgs args) with (Command.push_args spawnArgs args).
  rewrite push_args_forwarded. unfold Dispatch.forwarded, Dispatch.control_flags.
  split; [by apply prefix_app_r |]. split; [| split; [| reflexivity]].
  - split.
    + intros Heq%app_inv_head. apply Forall_forall. intros a Ha.
      destruct (decide (a ∉ ["--legacy"; "--dry-run"; "-d"])) as [|Hflag]; [done |].
      pose proof (length_filter_lt (λ a, a ∉ ["--legacy"; "--dry-run"; "-d"]) args a Ha Hflag)
        as Hlt.
      rewrite Heq in Hlt. lia.
    + intros Hall. f_equal. induction Hall as [|a args Ha Hall IH]; [done |].
      rewrite filter_cons_True by done. by rewrite IH.
  - rewrite length_app.
    pose proof (length_filter (λ a, a ∉ ["--legacy"; "--dry-run"; "-d"]) args). lia.
Qed.

(** X6: copying a list of arguments given in two parts is copying the
    first part and then the second. *)
Theorem push_args_app (spawnArgs args1 args2 : list string) :
  Command.push_args spawnArgs (args1 ++ args2)
  = Command.push_args (Command.push_args spawnArgs args1) args2.
Proof.
  rewrite !push_args_forwarded. unfold Dispatch.forwarded.
  by rewrite filter_app, app_assoc.
Qed.

(** ** What dispatch depends on, and what it touches *)

(** X7: dispatch uses the options only through the working directory they
    select and their other properties: an empty [cwd] is the same as none,
    and the directory of the process plays no part once [cwd] is given. *)
Theorem dispatch_options_through_cwd {Callback : Type} (impl : implementation)
    (h : host) (args : list string) (options1 options2 : CommandOptions)
    (cb : Callback) :
  Dispatch.caller_cwd h options1 = Dispatch.caller_cwd h options2 →
  options_rest options1 = options_rest options2 →
  dispatch_of impl h args options1 cb = dispatch_of impl h args options2 cb.
Proof.
  intros Hcwd Hrest. rewrite !dispatch_of_eq.
  unfold Dispatch.decide_branch, Dispatch.branch_trace, Dispatch.legacy_action,
    spread_with_cwd.
  by rewrite Hcwd, Hrest.
Qed.

Lemma dispatch_options_through_cwd_witness :
  dispatch_of (Callback:=unit) CommandTs fresh_project ["--fix"]
    {| options_cwd := Some EmptyString; options_rest := ∅ |} tt
  = dispatch_of CommandTs fresh_project ["--fix"] no_options tt.
Proof.
  apply (dispatch_options_through_cwd (Callback:=unit) CommandTs fresh_project ["--fix"]
           {| options_cwd := Some EmptyString; options_rest := ∅ |} no_options tt);
    reflexivity.
Defined.


(** X9: whatever dispatch spawns is either [npm run format] or the bundled
    formatter with [check --write --unsafe] in front and the forwarded
    arguments at the end, always with the caller's callback and with the
    caller's options in which [cwd] is set. *)
Theorem dispatch_spawn_shape {Callback : Type} (impl : implementation) (h : host)
    (args : list string) (options : CommandOptions) (cb : Callback)
    (command : string) (spawnArgs : list string) (spawnOptions : CommandOptions)
    (cb' : Callback) :
  ESpawn command spawnArgs spawnOptions cb' ∈ fst (dispatch_of impl h args options cb) →
  cb' = cb
  ∧ spawnOptions = spread_with_cwd options (Dispatch.caller_cwd h options)
  ∧ ((command = "npm" ∧ spawnArgs = ["run"; "format"])
     ∨ (resolveBin h "@biomejs/biome" "biome" = Some command
        ∧ ∃ middle, spawnArgs
                    = ["check"; "--write"; "--unsafe"] ++ middle ++ Dispatch.forwarded args)).
Proof.
  rewrite dispatch_of_eq. simpl.
  unfold Dispatch.branch_trace, probe_trace, Dispatch.legacy_action,
    Dispatch.base_arguments.
  destruct (files h !! _) as [e|]; destruct (resolveBin h _ _) as [biomeBin|];
    destruct (Dispatch.decide_branch h args options);
    simpl; intros Hin;
    repeat (apply elem_of_cons in Hin as [Hin|Hin]; [try discriminate Hin |]);
    try (by apply elem_of_nil in Hin);
    injection Hin as -> -> -> ->; (split; [done |]); (split; [done |]); eauto.
Qed.

Lemma dispatch_spawn_shape_witness :
  tt = tt
  ∧ spread_with_cwd no_options "/work"
    = spread_with_cwd no_options (Dispatch.caller_cwd broken_project no_options)
  ∧ (("npm" = "npm" ∧ ["run"; "format"] = ["run"; "format"])
     ∨ (resolveBin broken_project "@biomejs/biome" "biome" = Some "npm"
        ∧ ∃ middle, ["run"; "format"]
                    = ["check"; "--write"; "--unsafe"] ++ middle
                      ++ Dispatch.forwarded ["--legacy"])).
Proof.
  apply (dispatch_spawn_shape (Callback:=unit) CommandTs broken_project ["--legacy"]
           no_options tt "npm" ["run"; "format"] (spread_with_cwd no_options "/work") tt).
  apply elem_of_cons. right. apply elem_of_cons. left. reflexivity.
Defined.

(** X10: dispatch uses the arguments only through the two flags [getopts]
    reports and through the arguments left after the control flags are
    dropped: a control flag that [getopts] does not count (one after [--])
    changes nothing. *)
Theorem dispatch_args_through_getopts {Callback : Type} (impl : implementation)
    (h : host) (args1 args2 : list string) (options : CommandOptions) (cb : Callback) :
  getopts h args1 = getopts h args2 →
  Dispatch.forwarded args1 = Dispatch.forwarded args2 →
  dispatch_of impl h args1 options cb = dispatch_of impl h args2 options cb.
Proof.
  intros Hopts Hforwarded. rewrite !dispatch_of_eq.
  unfold Dispatch.decide_branch, Dispatch.branch_trace.
  by rewrite Hopts, Hforwarded.
Qed.

Lemma dispatch_args_through_getopts_witness :
  dispatch_of (Callback:=unit) CommandTs fresh_project ["--fix"; "--"; "-d"] no_options tt
  = dispatch_of CommandTs fresh_project ["--fix"; "--"] no_options tt.
Proof.
  apply (dispatch_args_through_getopts (Callback:=unit) CommandTs fresh_project
           ["--fix"; "--"; "-d"] ["--fix"; "--"] no_options tt); reflexivity.
Defined.

(** X11: dispatch spawns a process exactly when the platform is supported,
    the dry-run flag is not set and the formatter binary resolves if the
    Bundled branch is reached; it calls the callback itself exactly when
    the platform is unsupported or the dry-run flag is set. *)
Theorem dispatch_spawns_iff {Callback : Type} (impl : implementation) (h : host)
    (args : list string) (options : CommandOptions) (cb : Callback) :
  (Dispatch.spawn_count (fst (dispatch_of impl h args options cb)) = 1%nat
   ↔ ¬ Dispatch.unsupported_platform h ∧ ¬ Dispatch.dry_run_flag h args
     ∧ Dispatch.formatter_resolves h args options)
  ∧ (Dispatch.callback_count (fst (dispatch_of impl h args options cb)) = 1%nat
     ↔ Dispatch.unsupported_platform h ∨ Dispatch.dry_run_flag h args).
Proof.
  rewrite dispatch_of_eq. simpl.
  unfold Dispatch.formatter_resolves, Dispatch.decide_branch, Dispatch.dry_run_flag.
  destruct (decide (Dispatch.unsupported_platform h)) as [Hu|Hu].
  { simpl. split; split; try tauto; discriminate. }
  destruct (opts_dry_run (getopts h args)).
  { simpl. split; split; try tauto; discriminate. }
  assert (¬ (Dispatch.unsupported_platform h ∨ false = true)) as Hnone
    by (intros [?|?]; done).
  unfold Dispatch.branch_trace, probe_trace, Dispatch.spawn_count, Dispatch.callback_count.
  destruct (opts_legacy (getopts h args)); [| destruct (detected_mode h _)];
    destruct (files h !! biome_json_path h (Dispatch.caller_cwd h options));
    try destruct (resolveBin h "@biomejs/biome" "biome") as [biomeBin|];
    simpl; (split; split; try done).
  all: try (intros _; split; [done |]; split; [done |]; intros; by eauto).
  all: intros (_ & _ & Hsome); by destruct (Hsome eq_refl).
Qed.

(** ** The exported entry points *)

Lemma first_component_app (a rest : string) :
  (∀ i, String.get i a ≠ Some (Ascii.ascii_of_nat 46)) →
  first_component (a +:+ String (Ascii.ascii_of_nat 46) rest) = a.
Proof.
  induction a as [|c a IH]; intros Hdots.
  - reflexivity.
  - rewrite append_cons. simpl.
    destruct (Ascii.eqb_spec c (Ascii.ascii_of_nat 46)) as [->|_].
    + by destruct (Hdots 0%nat).
    + f_equal. apply IH. intros i. apply (Hdots (S i)).
Qed.

(** X12: a call of either exported [format] is either one call through
    the bridge, with the caller's arguments, options and callback as they
    came and nothing done in this process, or the dispatch logic run in
    this process, which never completes twice, and which ends normally with
    one completion exactly when the formatter binary resolves if the
    Bundled branch is reached. *)
Theorem format_completes_once {Callback : Type} (h : host) (rt : runtime)
    (args : list string) (options : CommandOptions) (cb : Callback) :
  match CommandEntry.format h rt args options cb with
  | InProcess m =>
      m = Command.run h args options cb
      ∧ (snd m = Returned tt ↔ Dispatch.formatter_resolves h args options)
      ∧ ((Dispatch.spawn_count (fst m) + Dispatch.callback_count (fst m) = 1)%nat
         ↔ Dispatch.formatter_resolves h args options)
      ∧ (Dispatch.spawn_count (fst m) + Dispatch.callback_count (fst m) ≤ 1)%nat
  | Delegated via args' options' cb' =>
      via = BindVersion ">=20"
              (path_join h (path_join h (path_join h (module_dirname rt) "..") "cjs")
                 "command.js")
      ∧ args' = args ∧ options' = options ∧ cb' = cb
  end
  ∧ match Part000Entry.format h rt args options cb with
    | InProcess m =>
        m = Part000.worker h args options cb
        ∧ (snd m = Returned tt ↔ Dispatch.formatter_resolves h args options)
        ∧ ((Dispatch.spawn_count (fst m) + Dispatch.callback_count (fst m) = 1)%nat
           ↔ Dispatch.formatter_resolves h args options)
        ∧ (Dispatch.spawn_count (fst m) + Dispatch.callback_count (fst m) ≤ 1)%nat
    | Delegated via args' options' cb' =>
        via = WrapWorker
                (path_join h (path_join h (path_join h (module_dirname rt) "..") "cjs")
                   "command.js")
                "stable"
        ∧ args' = args ∧ options' = options ∧ cb' = cb
    end.
Proof.
  assert ((snd (Command.run h args options cb) = Returned tt
           ↔ Dispatch.formatter_resolves h args options)
          ∧ ((Dispatch.spawn_count (fst (Command.run h args options cb))
              + Dispatch.callback_count (fst (Command.run h args options cb)) = 1)%nat
             ↔ Dispatch.formatter_resolves h args options)
          ∧ (Dispatch.spawn_count (fst (Command.run h args options cb))
             + Dispatch.callback_count (fst (Command.run h args options cb)) ≤ 1)%nat)
    as Honce.
  { rewrite run_eq. simpl. split; [apply branch_outcome_resolves |].
    split; [apply branch_completes_resolves |].
    rewrite branch_trace_completes. destruct (Dispatch.branch_outcome h _); lia. }
  split.
  - unfold CommandEntry.format, CommandEntry.worker.
    destruct (PrimFloat.leb 20 _); [by split | done].
  - unfold Part000Entry.format, Part000Entry.version, Part000Entry.workerWrapper.
    destruct (PrimFloat.ltb 14 _); simpl; [| done].
    rewrite Part000_worker_same. by split.
Qed.

(** X13: both entry points decide by the number that stands before the
    first dot of the Node version: the one runs the logic in this process
    from 20 on, the other above 14, and each goes through its bridge
    otherwise. *)
Theorem format_by_major_version {Callback : Type} (h : host) (rt : runtime)
    (args : list string) (options : CommandOptions) (cb : Callback)
    (major_text rest : string) :
  versions_node rt = major_text +:+ String (Ascii.ascii_of_nat 46) rest →
  (∀ i, String.get i major_text ≠ Some (Ascii.ascii_of_nat 46)) →
  CommandEntry.format h rt args options cb
  = (if PrimFloat.leb 20 (to_number rt major_text)
     then InProcess (Command.run h args options cb)
     else Delegated
            (BindVersion ">=20"
               (path_join h (path_join h (path_join h (module_dirname rt) "..") "cjs")
                  "command.js"))
            args options cb)
  ∧ Part000Entry.format h rt args options cb
    = (if PrimFloat.ltb 14 (to_number rt major_text)
       then InProcess (Part000.worker h args options cb)
       else Delegated
              (WrapWorker
                 (path_join h (path_join h (path_join h (module_dirname rt) "..") "cjs")
                    "command.js")
                 "stable")
              args options cb).
Proof.
  intros Hversion Hdots.
  unfold CommandEntry.format, CommandEntry.worker, CommandEntry.major,
    Part000Entry.format, Part000Entry.version, Part000Entry.major,
    Part000Entry.workerWrapper.
  rewrite Hversion, first_component_app by done.
  split; [done |]. by destruct (PrimFloat.ltb 14 _).
Qed.

Lemma format_by_major_version_witness :
  CommandEntry.format (Callback:=unit) fresh_project (node_runtime "22.3.0") ["--fix"]
    no_options tt
  = (if PrimFloat.leb 20 (decimal_to_number "22")
     then InProcess (Command.run fresh_project ["--fix"] no_options tt)
     else Delegated
            (BindVersion ">=20" "/pkg/node_modules/tsds-biome/dist/esm/../cjs/command.js")
            ["--fix"] no_options tt)
  ∧ Part000Entry.format (Callback:=unit) fresh_project (node_runtime "22.3.0") ["--fix"]
      no_options tt
    = (if PrimFloat.ltb 14 (decimal_to_number "22")
       then InProcess (Part000.worker fresh_project ["--fix"] no_options tt)
       else Delegated
              (WrapWorker "/pkg/node_modules/tsds-biome/dist/esm/../cjs/command.js"
                 "stable")
              ["--fix"] no_options tt).
Proof.
  apply (format_by_major_version (Callback:=unit) fresh_project (node_runtime "22.3.0")
           ["--fix"] no_options tt "22" "3.0").
  - reflexivity.
  - intros [|[|[|i]]]; discriminate.
Defined.

(** X14: where the two entry points part: on a Node whose major version is
    above 14 but not 20 or more, the one goes through its bridge while the
    other runs the logic in this process. *)
Theorem format_entry_points_differ {Callback : Type} (h : host) (rt : runtime)
    (args : list string) (options : CommandOptions) (cb : Callback) :
  PrimFloat.ltb 14 (to_number rt (first_component (versions_node rt))) = true →
  PrimFloat.leb 20 (to_number rt (first_component (versions_node rt))) = false →
  CommandEntry.format h rt args options cb
  = Delegated
      (BindVersion ">=20"
         (path_join h (path_join h (path_join h (module_dirname rt) "..") "cjs")
            "command.js"))
      args options cb
  ∧ Part000Entry.format h rt args options cb
    = InProcess (Part000.worker h args options cb)
  ∧ CommandEntry.format h rt args options cb ≠ Part000Entry.format h rt args options cb.
Proof.
  intros Habove Hbelow.
  unfold CommandEntry.format, CommandEntry.worker, CommandEntry.major,
    Part000Entry.format, Part000Entry.version, Part000Entry.major.
  rewrite Habove, Hbelow. simpl. done.
Qed.

Lemma format_entry_points_differ_witness :
  CommandEntry.format (Callback:=unit) fresh_project (node_runtime "18.19.0") ["--fix"]
    no_options tt
  = Delegated
      (BindVersion ">=20" "/pkg/node_modules/tsds-biome/dist/esm/../cjs/command.js")
      ["--fix"] no_options tt
  ∧ Part000Entry.format (Callback:=unit) fresh_project (node_runtime "18.19.0") ["--fix"]
      no_options tt
    = InProcess (Part000.worker fresh_project ["--fix"] no_options tt)
  ∧ CommandEntry.format (Callback:=unit) fresh_project (node_runtime "18.19.0") ["--fix"]
      no_options tt
    ≠ Part000Entry.format fresh_project (node_runtime "18.19.0") ["--fix"] no_options tt.
Proof.
  apply (format_entry_points_differ (Callback:=unit) fresh_project
           (node_runtime "18.19.0") ["--fix"] no_options tt).
  - vm_compute. reflexivity.
  - vm_compute. reflexivity.
Defined.
